(** * Note splitter: the split-by-delimiter command of [src/main.ts]

    A shallow embedding of [NoteSplitterPlugin.splitNoteByDelimiter] and of
    the JavaScript string primitives it calls, followed by the properties
    of the split pipeline.

    Strings are JavaScript strings: finite sequences of UTF-16 code units.
    A code unit is a number of type [N]; no statement below depends on the
    bound [< 65536]. *)

From Stdlib Require Import Ascii String DecimalString DecimalZ.
From Stdlib Require Import NArith ZArith Bool Lia Arith List.
Import ListNotations.

(** ** JavaScript strings *)

Module JS.

Definition code_unit := N.
Definition jsstring := list code_unit.

(** A source-code literal made of ASCII characters. *)
Definition lit (s : string) : jsstring :=
  map N_of_ascii (list_ascii_of_string s).
Arguments lit s%_string.

Definition eqb (a b : jsstring) : bool :=
  if list_eq_dec N.eq_dec a b then true else false.

(** Template literals and [+] on strings print a number in decimal (the
    integers that arise here, a count of files and a time stamp plus an
    index, are far below the size at which JavaScript switches to the
    exponent notation). *)
Definition of_Z (z : Z) : jsstring := lit (NilEmpty.string_of_int (Z.to_int z)).
Definition of_nat (n : nat) : jsstring := of_Z (Z.of_nat n).

(** [d] is a prefix of [t]. *)
Fixpoint startsWith (d t : jsstring) : bool :=
  match d, t with
  | [], _ => true
  | _ :: _, [] => false
  | x :: d', y :: t' => N.eqb x y && startsWith d' t'
  end.

(** [String.prototype.indexOf]: position of the leftmost occurrence. *)
Fixpoint indexOf (d t : jsstring) {struct t} : option nat :=
  if startsWith d t then Some 0
  else match t with
       | [] => None
       | _ :: t' => option_map S (indexOf d t')
       end.

(** [String.prototype.includes]. *)
Definition includes (t d : jsstring) : bool :=
  match indexOf d t with Some _ => true | None => false end.

(** [String.prototype.split] with a string separator.  For a non-empty
    separator the standard's loop looks for the next occurrence at or after
    the current position, emits the text before it and resumes behind it;
    the text after the last occurrence is the last element.  Every round
    consumes at least one code unit, so [length t] rounds are enough.  The
    empty separator splits into single code units. *)
Fixpoint split_loop (fuel : nat) (d t : jsstring) : list jsstring :=
  match fuel with
  | O => [t]
  | S fuel' =>
      match indexOf d t with
      | None => [t]
      | Some q => firstn q t :: split_loop fuel' d (skipn (q + length d) t)
      end
  end.

Definition split (t d : jsstring) : list jsstring :=
  match d with
  | [] => map (fun c => [c]) t
  | _ :: _ => split_loop (length t) d t
  end.

(** [Array.prototype.join]. *)
Fixpoint join (sep : jsstring) (l : list jsstring) : jsstring :=
  match l with
  | [] => []
  | [s] => s
  | s :: l' => s ++ sep ++ join sep l'
  end.

(** White space and line terminators of ECMAScript, the code units that
    [String.prototype.trim] strips. *)
Definition is_ws (c : code_unit) : bool :=
  ((9 <=? c) && (c <=? 13) || (c =? 32) || (c =? 160) || (c =? 5760)
   || (8192 <=? c) && (c <=? 8202) || (c =? 8232) || (c =? 8233)
   || (c =? 8239) || (c =? 8287) || (c =? 12288) || (c =? 65279))%N.

Fixpoint trimStart (s : jsstring) : jsstring :=
  match s with
  | [] => []
  | c :: s' => if is_ws c then trimStart s' else s
  end.

Definition trimEnd (s : jsstring) : jsstring := rev (trimStart (rev s)).

Definition trim (s : jsstring) : jsstring := trimEnd (trimStart s).

End JS.

Import JS.

(** ** The partition step of [splitNoteByDelimiter] *)

Definition backslash : code_unit := 92%N.
Definition letter_n : code_unit := 110%N.
Definition newline : code_unit := 10%N.

(** [delimiter.replace(/\\n/g, "\n")]: one scan from left to right; at a
    backslash followed by [n] both are consumed and a newline is produced,
    any other code unit is copied. *)
Fixpoint normalizeDelimiter (s : jsstring) : jsstring :=
  match s with
  | [] => []
  | c :: rest =>
      match rest with
      | c2 :: rest' =>
          if (N.eqb c backslash && N.eqb c2 letter_n)%bool
          then newline :: normalizeDelimiter rest'
          else c :: normalizeDelimiter rest
      | [] => [c]
      end
  end.

(** [text.split(d).map(c => c.trim()).filter(c => c !== "")]. *)
Definition partition (text d : jsstring) : list jsstring :=
  filter (fun content => negb (eqb content []))
         (map (fun content => trim content) (split text d)).

(** ** Vocabulary of the statements *)

(** [d] occurs in [t] as a literal substring. *)
Definition occurs (d t : jsstring) : Prop :=
  exists a b, t = a ++ d ++ b.

(** [segs] cuts [t] at the occurrences of [d], found from left to right
    without overlap: a segment is followed by the first occurrence that
    starts at or after its own start, and the last segment has none. *)
Inductive is_split (d : jsstring) : jsstring -> list jsstring -> Prop :=
| is_split_end t :
    ~ occurs d t -> is_split d t [t]
| is_split_cut s rest segs :
    (forall a b, s ++ d = a ++ d ++ b -> length s <= length a) ->
    is_split d rest segs ->
    is_split d (s ++ d ++ rest) (s :: segs).

(** [r] is [s] without its leading and trailing white space. *)
Definition is_trim (s r : jsstring) : Prop :=
  exists l w, s = l ++ r ++ w
    /\ forallb is_ws l = true /\ forallb is_ws w = true
    /\ (forall c r', r = c :: r' -> is_ws c = false)
    /\ (forall c r', r = r' ++ [c] -> is_ws c = false).

(** [out] lists, in the order of [segs], the trimmed segments that are
    not empty. *)
Inductive trimmed_nonempty : list jsstring -> list jsstring -> Prop :=
| tn_nil : trimmed_nonempty [] []
| tn_drop s segs out :
    is_trim s [] -> trimmed_nonempty segs out ->
    trimmed_nonempty (s :: segs) out
| tn_keep s r segs out :
    is_trim s r -> r <> [] -> trimmed_nonempty segs out ->
    trimmed_nonempty (s :: segs) (r :: out).

Definition whitespace_only (s : jsstring) : Prop := forallb is_ws s = true.

(** ** The host of the plugin

    The command runs against the Obsidian vault, the clock, the random
    source and the notification area.  An awaited call either resolves or
    rejects with an error; a rejection outside a [try] block ends the run.
    Every call and its outcome is recorded, in order, in the trace of the
    run.  A rejection carries an [Error] with its [message], which is what
    the handlers of the command read.  [this.settings] is taken to stay the
    same during a run. *)

Record Error := { message : jsstring }.

Inductive result (A : Type) :=
| Ok (a : A)
| Throw (err : Error).
Arguments Ok {A} a.
Arguments Throw {A} err.

Definition rejection {A : Type} (r : result A) : option Error :=
  match r with Ok _ => None | Throw err => Some err end.

(** [TFile]: the path of the note and the path of its parent folder, when
    it has one ([file.parent?.path]). *)
Record TFile := { path : jsstring; parent : option jsstring }.

Record NoteSplitterSettings := {
  saveFolderPath : jsstring;
  useContentAsTitle : bool;
  delimiter : jsstring;
  appendToSplitContent : jsstring;
  deleteOriginalNote : bool
}.

Definition DEFAULT_SETTINGS : NoteSplitterSettings := {|
  saveFolderPath := lit "note-splitter";
  useContentAsTitle := false;
  delimiter := [backslash; letter_n];
  appendToSplitContent := [];
  deleteOriginalNote := false
|}.

(** The two [vault.create] calls of the loop body: the one with the
    derived file name and the one in the handler of a name conflict. *)
Inductive attempt := First | Retry.

Inductive event :=
| EvNotice (msg : jsstring)
| EvConsoleError (err : Error)
| EvConsoleLog (err : Error)
| EvCachedRead (file : TFile) (rejected : option Error)
| EvCreateFolder (folder : jsstring) (rejected : option Error)
| EvCreate (a : attempt) (filePath data : jsstring) (rejected : option Error)
| EvDelete (file : TFile) (rejected : option Error)
| EvDateNow (now : Z)
| EvRandomUUID (uuid : jsstring).

Definition trace := list event.

(** The host API the command uses.  [World] is whatever the host keeps
    between calls. *)
Record Host (World : Type) := {
  cachedRead : TFile -> World -> result jsstring * World;
  createFolder : jsstring -> World -> result unit * World;
  create : jsstring -> jsstring -> World -> result unit * World;
  delete : TFile -> World -> result unit * World;
  Date_now : World -> Z * World;
  randomUUID : World -> jsstring * World;
  normalizePath : jsstring -> jsstring
}.
Arguments cachedRead {World} h.
Arguments createFolder {World} h.
Arguments create {World} h.
Arguments delete {World} h.
Arguments Date_now {World} h.
Arguments randomUUID {World} h.
Arguments normalizePath {World} h.

(** The helpers imported from [./utils]; their code is not part of
    [main.ts], so the command is modelled for arbitrary helpers. *)
Record Utils := {
  escapeInvalidFileNameChars : jsstring -> jsstring;
  removeFrontmatterBlock : jsstring -> jsstring;
  trimForFileName : jsstring -> jsstring -> jsstring
}.

(** ** Computations: host state, exceptions and the trace *)

Definition M (World A : Type) : Type := World -> result A * World * trace.

Definition ret {World A : Type} (a : A) : M World A :=
  fun w => (Ok a, w, []).

Definition bind {World A B : Type} (m : M World A) (f : A -> M World B)
  : M World B :=
  fun w =>
    match m w with
    | (Ok a, w1, t1) =>
        match f a w1 with
        | (r, w2, t2) => (r, w2, t1 ++ t2)
        end
    | (Throw err, w1, t1) => (Throw err, w1, t1)
    end.

(** [try { m } catch (err) { handler err }]. *)
Definition try_catch {World A : Type} (m : M World A)
           (handler : Error -> M World A) : M World A :=
  fun w =>
    match m w with
    | (Ok a, w1, t1) => (Ok a, w1, t1)
    | (Throw err, w1, t1) =>
        match handler err w1 with
        | (r, w2, t2) => (r, w2, t1 ++ t2)
        end
    end.

Definition emit {World : Type} (e : event) : M World unit :=
  fun w => (Ok tt, w, [e]).

Notation "x <- m ;; k" := (bind m (fun x => k))
  (at level 61, m at next level, right associativity).
Notation "m ;;; k" := (bind m (fun _ => k))
  (at level 61, right associativity).

Definition Notice {World : Type} (msg : jsstring) : M World unit :=
  emit (EvNotice msg).

Section Plugin.

Context {World : Type}.
Variable host : Host World.
Variable utils : Utils.
Variable settings : NoteSplitterSettings.

Definition vault_cachedRead (file : TFile) : M World jsstring :=
  fun w => let (r, w') := cachedRead host file w in
           (r, w', [EvCachedRead file (rejection r)]).

Definition vault_createFolder (folder : jsstring) : M World unit :=
  fun w => let (r, w') := createFolder host folder w in
           (r, w', [EvCreateFolder folder (rejection r)]).

Definition vault_create (a : attempt) (filePath data : jsstring)
  : M World unit :=
  fun w => let (r, w') := create host filePath data w in
           (r, w', [EvCreate a filePath data (rejection r)]).

Definition vault_delete (file : TFile) : M World unit :=
  fun w => let (r, w') := delete host file w in
           (r, w', [EvDelete file (rejection r)]).

Definition date_now : M World Z :=
  fun w => let (t, w') := Date_now host w in (Ok t, w', [EvDateNow t]).

Definition crypto_randomUUID : M World jsstring :=
  fun w => let (u, w') := randomUUID host w in (Ok u, w', [EvRandomUUID u]).

(** Lines 111-117: the file name of fragment [i]. *)
Definition fileNameOf (i : nat) (originalContent : jsstring)
  : M World jsstring :=
  let fileName := nth 0 (split originalContent [newline]) [] in
  if useContentAsTitle settings then
    let fileName := escapeInvalidFileNameChars utils fileName in
    ret (trimForFileName utils fileName (lit ".md"))
  else
    t <- date_now ;;
    ret (lit "split-note-" ++ of_Z (t + Z.of_nat i)).

(** Lines 104-138: the body of the loop, from the value of [filesCreated]
    before the fragment to its value after it. *)
Definition writeFragment (folderPath : jsstring) (filesCreated : nat)
           (i : nat) (originalContent : jsstring) : M World nat :=
  let updatedContent :=
    if 0 <? length (appendToSplitContent settings)
    then originalContent ++ appendToSplitContent settings
    else originalContent in
  fileName <- fileNameOf i originalContent ;;
  let filePath :=
    normalizePath host (folderPath ++ lit "/" ++ fileName ++ lit ".md") in
  try_catch
    (vault_create First filePath updatedContent ;;;
     ret (S filesCreated))
    (fun err =>
       if includes (message err) (lit "already exists") then
         uuid <- crypto_randomUUID ;;
         let newFilePath :=
           folderPath ++ lit "/Split conflict " ++ uuid ++ lit ".md" in
         try_catch
           (vault_create Retry newFilePath updatedContent ;;;
            ret (S filesCreated))
           (fun err =>
              emit (EvConsoleError err) ;;;
              Notice (lit "Error creating file: " ++ message err) ;;;
              ret filesCreated)
       else
         Notice (lit "Error creating file: " ++ message err) ;;;
         emit (EvConsoleLog err) ;;;
         ret filesCreated).

(** Lines 103-139: [for (const [i, originalContent] of
    splitContent.entries())], from index [i] on. *)
Fixpoint writeLoop (folderPath : jsstring) (filesCreated : nat) (i : nat)
         (entries : list jsstring) : M World nat :=
  match entries with
  | [] => ret filesCreated
  | originalContent :: rest =>
      filesCreated <- writeFragment folderPath filesCreated i originalContent ;;
      writeLoop folderPath filesCreated (S i) rest
  end.

(** Lines 92-94: [(saveFolderPath || file.parent?.path) ?? ""]. *)
Definition folderPathOf (file : TFile) : jsstring :=
  if negb (eqb (saveFolderPath settings) []) then saveFolderPath settings
  else match parent file with
       | Some p => p
       | None => []
       end.

Definition summary (filesCreated : nat) : jsstring :=
  lit "Split into " ++ of_nat filesCreated ++ lit " note"
  ++ (if 1 <? filesCreated then lit "s" else []) ++ lit ".".

(** Lines 57-148. *)
Definition splitNoteByDelimiter (file : TFile) : M World unit :=
  let escapedDelimiter := normalizeDelimiter (delimiter settings) in
  if eqb escapedDelimiter [] then
    Notice (lit "No delimiter set. Please set a delimiter in the settings.")
  else
    data <- vault_cachedRead file ;;
    let dataWithoutFrontmatter := removeFrontmatterBlock utils data in
    if eqb dataWithoutFrontmatter [] then
      Notice (lit "No content to split.")
    else
      let splitContent := partition dataWithoutFrontmatter escapedDelimiter in
      if length splitContent =? 0 then
        Notice (lit "No content to split.")
      else if length splitContent =? 1 then
        Notice (lit "Only one section of content found. Nothing to split.")
      else
        let folderPath := folderPathOf file in
        try_catch (vault_createFolder folderPath) (fun _ => ret tt) ;;;
        filesCreated <- writeLoop folderPath 0 0 splitContent ;;
        (if (filesCreated =? length splitContent)
            && deleteOriginalNote settings
         then vault_delete file
         else ret tt) ;;;
        Notice (summary filesCreated).

End Plugin.

Definition outcome_of {World A : Type} (x : result A * World * trace)
  : result A := fst (fst x).

Definition trace_of {World A : Type} (x : result A * World * trace)
  : trace := snd x.

(** ** What a trace shows *)

Fixpoint notices (tr : trace) : list jsstring :=
  match tr with
  | [] => []
  | EvNotice msg :: tr' => msg :: notices tr'
  | _ :: tr' => notices tr'
  end.

(** The [vault.create] calls that resolved: the stored items created. *)
Definition created (e : event) : bool :=
  match e with EvCreate _ _ _ None => true | _ => false end.

Definition filesCreatedIn (tr : trace) : nat := length (filter created tr).

(** The file paths of the first attempts, one per fragment processed. *)
Fixpoint firstAttempts (tr : trace) : list jsstring :=
  match tr with
  | [] => []
  | EvCreate First filePath _ _ :: tr' => filePath :: firstAttempts tr'
  | _ :: tr' => firstAttempts tr'
  end.

(** The calls of [vault.delete]. *)
Fixpoint deletions (tr : trace) : list TFile :=
  match tr with
  | [] => []
  | EvDelete file _ :: tr' => file :: deletions tr'
  | _ :: tr' => deletions tr'
  end.

(** The calls that can change the vault. *)
Definition mutation (e : event) : bool :=
  match e with
  | EvCreateFolder _ _ | EvCreate _ _ _ _ | EvDelete _ _ => true
  | _ => false
  end.

(** The readings of the clock, in the order they were taken. *)
Fixpoint clockReadings (tr : trace) : list Z :=
  match tr with
  | [] => []
  | EvDateNow t :: tr' => t :: clockReadings tr'
  | _ :: tr' => clockReadings tr'
  end.

(** [split-note-${Date.now() + i}] for the readings [ts], the first of
    them taken at fragment [i]. *)
Fixpoint synthesizedNames (i : nat) (ts : list Z) : list jsstring :=
  match ts with
  | [] => []
  | t :: ts' =>
      (lit "split-note-" ++ of_Z (t + Z.of_nat i)) :: synthesizedNames (S i) ts'
  end.

Fixpoint nondecreasing (ts : list Z) : Prop :=
  match ts with
  | [] => True
  | t :: ts' => (forall t', In t' ts' -> (t <= t')%Z) /\ nondecreasing ts'
  end.

Definition is_summary (msg : jsstring) : Prop :=
  exists rest, msg = lit "Split into " ++ rest.

Definition is_error_notice (msg : jsstring) : Prop :=
  exists err, msg = lit "Error creating file: " ++ message err.

Section TraceShapes.

Context {World : Type}.
Variable host : Host World.
Variable utils : Utils.
Variable settings : NoteSplitterSettings.
Variable folderPath : jsstring.

Definition firstLine (originalContent : jsstring) : jsstring :=
  nth 0 (split originalContent [newline]) [].

(** The body written for a fragment: the fragment followed by the
    configured suffix. *)
Definition bodyOf (originalContent : jsstring) : jsstring :=
  originalContent ++ appendToSplitContent settings.

Definition filePathOf (fileName : jsstring) : jsstring :=
  normalizePath host (folderPath ++ lit "/" ++ fileName ++ lit ".md").

Definition conflictPathOf (uuid : jsstring) : jsstring :=
  folderPath ++ lit "/Split conflict " ++ uuid ++ lit ".md".

Definition name_exists (err : Error) : bool :=
  includes (message err) (lit "already exists").

Definition error_notice (err : Error) : event :=
  EvNotice (lit "Error creating file: " ++ message err).

(** The file name of fragment [i] and the clock reading it took. *)
Inductive named (i : nat) (originalContent : jsstring)
  : jsstring -> trace -> Prop :=
| named_title :
    useContentAsTitle settings = true ->
    named i originalContent
      (trimForFileName utils
         (escapeInvalidFileNameChars utils (firstLine originalContent))
         (lit ".md"))
      []
| named_synthesized t :
    useContentAsTitle settings = false ->
    named i originalContent
      (lit "split-note-" ++ of_Z (t + Z.of_nat i)) [EvDateNow t].

(** What the processing of one fragment may look like: the number it adds
    to the count of written fragments, and its trace. *)
Inductive fragment_processed (i : nat) (originalContent : jsstring)
  : nat -> trace -> Prop :=
| fp_created fileName tn :
    named i originalContent fileName tn ->
    fragment_processed i originalContent 1
      (tn ++ [EvCreate First (filePathOf fileName) (bodyOf originalContent) None])
| fp_retry_created fileName tn err uuid :
    named i originalContent fileName tn ->
    name_exists err = true ->
    fragment_processed i originalContent 1
      (tn ++ [EvCreate First (filePathOf fileName) (bodyOf originalContent) (Some err);
              EvRandomUUID uuid;
              EvCreate Retry (conflictPathOf uuid) (bodyOf originalContent) None])
| fp_retry_failed fileName tn err uuid err' :
    named i originalContent fileName tn ->
    name_exists err = true ->
    fragment_processed i originalContent 0
      (tn ++ [EvCreate First (filePathOf fileName) (bodyOf originalContent) (Some err);
              EvRandomUUID uuid;
              EvCreate Retry (conflictPathOf uuid) (bodyOf originalContent) (Some err');
              EvConsoleError err';
              error_notice err'])
| fp_failed fileName tn err :
    named i originalContent fileName tn ->
    name_exists err = false ->
    fragment_processed i originalContent 0
      (tn ++ [EvCreate First (filePathOf fileName) (bodyOf originalContent) (Some err);
              error_notice err;
              EvConsoleLog err]).

(** The fragments from index [i] on are processed one after the other, in
    order, each in one of the four ways. *)
Inductive fragments_processed : nat -> list jsstring -> nat -> trace -> Prop :=
| fps_nil i : fragments_processed i [] 0 []
| fps_cons i originalContent rest k tr n tr' :
    fragment_processed i originalContent k tr ->
    fragments_processed (S i) rest n tr' ->
    fragments_processed i (originalContent :: rest) (k + n) (tr ++ tr').

End TraceShapes.

(** The calls of the handler of a name conflict, and the first attempts
    that were rejected because the name exists. *)
Definition retried (e : event) : bool :=
  match e with EvCreate Retry _ _ _ => true | _ => false end.

Definition conflicted (e : event) : bool :=
  match e with
  | EvCreate First _ _ (Some err) => includes (message err) (lit "already exists")
  | _ => false
  end.

(** A run that reaches the write loop with [fragments]: the note is read,
    the folder is asked for, the fragments are processed, and then either
    the summary is shown, or the note is deleted and the summary is shown,
    or the deletion is rejected and the run ends there. *)
Inductive materialized {World : Type} (host : Host World) (utils : Utils)
          (settings : NoteSplitterSettings) (file : TFile)
          (fragments : list jsstring) : result unit -> trace -> Prop :=
| mat_kept rej k tr :
    fragments_processed host utils settings (folderPathOf settings file)
                        0 fragments k tr ->
    (k =? length fragments) && deleteOriginalNote settings = false ->
    materialized host utils settings file fragments (Ok tt)
      ([EvCachedRead file None;
        EvCreateFolder (folderPathOf settings file) rej]
       ++ tr ++ [EvNotice (summary k)])
| mat_deleted rej k tr :
    fragments_processed host utils settings (folderPathOf settings file)
                        0 fragments k tr ->
    (k =? length fragments) && deleteOriginalNote settings = true ->
    materialized host utils settings file fragments (Ok tt)
      ([EvCachedRead file None;
        EvCreateFolder (folderPathOf settings file) rej]
       ++ tr ++ [EvDelete file None; EvNotice (summary k)])
| mat_delete_rejected rej k tr err :
    fragments_processed host utils settings (folderPathOf settings file)
                        0 fragments k tr ->
    (k =? length fragments) && deleteOriginalNote settings = true ->
    materialized host utils settings file fragments (Throw err)
      ([EvCachedRead file None;
        EvCreateFolder (folderPathOf settings file) rej]
       ++ tr ++ [EvDelete file (Some err)]).

(** The fragments of a note, as [splitNoteByDelimiter] computes them from
    the text it read. *)
Definition fragmentsOf (utils : Utils) (settings : NoteSplitterSettings)
           (data : jsstring) : list jsstring :=
  partition (removeFrontmatterBlock utils data)
            (normalizeDelimiter (delimiter settings)).

(** ** Helpers of [./utils], from their description *)

Module SpecUtils.

Definition invalid_in_file_name (c : code_unit) : bool :=
  ((c <? 32) || (c =? 127)
   || (c =? 92) || (c =? 47) || (c =? 58) || (c =? 42) || (c =? 63)
   || (c =? 34) || (c =? 60) || (c =? 62) || (c =? 124))%N.

Fixpoint collapse_ws (s : jsstring) : jsstring :=
  match s with
  | [] => []
  | c :: s' =>
      if is_ws c then
        match s' with
        | c2 :: _ => if is_ws c2 then collapse_ws s' else 32%N :: collapse_ws s'
        | [] => [32%N]
        end
      else c :: collapse_ws s'
  end.

(** Modelled from the spec: [escapeInvalidFileNameChars] of [./utils],
    whose code is missing, strips the characters that are invalid in a
    file name (backslash, slash, colon, star, question mark, double quote,
    angle brackets, bar and the control characters) and collapses and
    trims the white space left. *)
Definition escapeInvalidFileNameChars (value : jsstring) : jsstring :=
  trim (collapse_ws (filter (fun c => negb (invalid_in_file_name c)) value)).

(** Modelled from the spec: [trimForFileName] of [./utils], whose code is
    missing, truncates to the maximum length of a path component, 255,
    reserving room for the extension. *)
Definition trimForFileName (value extension : jsstring) : jsstring :=
  firstn (255 - length extension) value.

Fixpoint after_marker (lines : list jsstring) : option (list jsstring) :=
  match lines with
  | [] => None
  | l :: rest => if eqb l (lit "---") then Some rest else after_marker rest
  end.

(** Modelled from the spec: [removeFrontmatterBlock] of [./utils], whose
    code is missing, removes a block that starts with a marker line [---]
    at the very start of the text and ends with the next marker line, and
    returns a text without such a block unchanged. *)
Definition removeFrontmatterBlock (text : jsstring) : jsstring :=
  match split text [newline] with
  | first :: rest =>
      if eqb first (lit "---") then
        match after_marker rest with
        | Some body => join [newline] body
        | None => text
        end
      else text
  | [] => text
  end.

Definition utils : Utils :=
  Build_Utils escapeInvalidFileNameChars removeFrontmatterBlock trimForFileName.

End SpecUtils.

(** ** A small vault, to run the command on concrete notes *)

Module Vault.

Record World := {
  stored : list (jsstring * jsstring);  (* path and content of each file *)
  clock : list Z;                       (* the coming readings of the clock *)
  capacity : nat;                       (* how many more files fit *)
  locked : bool;                        (* files cannot be deleted *)
  uuids : nat                           (* random tokens handed out *)
}.

Fixpoint lookup (p : jsstring) (l : list (jsstring * jsstring))
  : option jsstring :=
  match l with
  | [] => None
  | (q, data) :: l' => if eqb p q then Some data else lookup p l'
  end.

Definition read (file : TFile) (w : World) : result jsstring * World :=
  match lookup (path file) (stored w) with
  | Some data => (Ok data, w)
  | None => (Throw {| message := lit "File not found." |}, w)
  end.

Definition mkdir (folder : jsstring) (w : World) : result unit * World :=
  (Throw {| message := lit "Folder already exists." |}, w).

Definition write (p data : jsstring) (w : World) : result unit * World :=
  match lookup p (stored w) with
  | Some _ => (Throw {| message := lit "File already exists." |}, w)
  | None =>
      match capacity w with
      | O => (Throw {| message := lit "No space left on device." |}, w)
      | S c =>
          (Ok tt, {| stored := stored w ++ [(p, data)]; clock := clock w;
                     capacity := c; locked := locked w; uuids := uuids w |})
      end
  end.

Definition remove (file : TFile) (w : World) : result unit * World :=
  if locked w then
    (Throw {| message := lit "Operation not permitted." |}, w)
  else
    (Ok tt, {| stored := filter (fun e => negb (eqb (fst e) (path file)))
                                (stored w);
               clock := clock w; capacity := capacity w; locked := locked w;
               uuids := uuids w |}).

Definition tick (w : World) : Z * World :=
  match clock w with
  | [] => (0%Z, w)
  | t :: ts =>
      (t, {| stored := stored w; clock := ts; capacity := capacity w;
             locked := locked w; uuids := uuids w |})
  end.

Definition token (w : World) : jsstring * World :=
  (lit "token-" ++ of_nat (uuids w),
   {| stored := stored w; clock := clock w; capacity := capacity w;
      locked := locked w; uuids := S (uuids w) |}).

Definition host : Host World :=
  Build_Host World read mkdir write remove tick token (fun p => p).

(** Notes and settings to run the command on. *)
Definition note : TFile :=
  {| path := lit "inbox/abc.md"; parent := Some (lit "inbox") |}.

(** Three sections [A], [B], [C] on lines of their own, separated by
    lines [---]. *)
Definition abc : jsstring :=
  [65; 10; 45; 45; 45; 10; 66; 10; 45; 45; 45; 10; 67]%N.

Definition one_part : jsstring := lit "Only one part".

(** Two sections; the first line of the first one is [???]. *)
Definition marks : jsstring :=
  [63; 63; 63; 10; 45; 45; 45; 10; 66]%N.

Definition dashes : NoteSplitterSettings := {|
  saveFolderPath := lit "note-splitter";
  useContentAsTitle := false;
  delimiter := lit "---";
  appendToSplitContent := [];
  deleteOriginalNote := true
|}.

Definition titled : NoteSplitterSettings := {|
  saveFolderPath := lit "note-splitter";
  useContentAsTitle := true;
  delimiter := lit "---";
  appendToSplitContent := [];
  deleteOriginalNote := true
|}.

Definition blank : NoteSplitterSettings := {|
  saveFolderPath := lit "note-splitter";
  useContentAsTitle := false;
  delimiter := [];
  appendToSplitContent := [];
  deleteOriginalNote := true
|}.

(** A vault that holds the note with content [data]. *)
Definition world (data : jsstring) (ts : list Z) (room : nat) (lock : bool)
  : World := {|
  stored := [(path note, data)];
  clock := ts; capacity := room; locked := lock; uuids := 0
|}.

End Vault.

(** ** The command and the settings

    The rest of the plugin class: the callback of the command
    [split-by-delimiter] (lines 32-51) and the loading and saving of the
    settings (lines 150-156). *)

(** [MarkdownViewModeType] of the Obsidian API: ['source' | 'preview']. *)
Inductive MarkdownViewModeType := source | preview.

(** What the callback reads of the active view: [view.file] and
    [view.getMode()]. *)
Record MarkdownView := {
  file : option TFile;
  getMode : MarkdownViewModeType
}.

(** A call of an [async] function whose promise is dropped: its effects
    take place, its outcome is not seen by the caller. *)
Definition detached {World A : Type} (m : M World A) : M World unit :=
  fun w => match m w with (_, w', tr) => (Ok tt, w', tr) end.

(** Lines 32-51; [view] is what
    [workspace.getActiveViewOfType(MarkdownView)] returned. *)
Definition callback {World : Type} (host : Host World) (utils : Utils)
           (settings : NoteSplitterSettings) (view : option MarkdownView)
  : M World unit :=
  match view with
  | None => Notice (lit "Please open a markdown note.")
  | Some view =>
      match file view with
      | None => Notice (lit "No file found for this note.")
      | Some file =>
          match getMode view with
          | source => detached (splitNoteByDelimiter host utils settings file)
          | preview =>
              Notice (lit "Please switch to editing mode to split this note.")
          end
      end
  end.

(** The data of the plugin as [loadData] returns it: an object with some
    of the keys of [NoteSplitterSettings], or [null]. *)
Record SavedData := {
  saved_saveFolderPath : option jsstring;
  saved_useContentAsTitle : option bool;
  saved_delimiter : option jsstring;
  saved_appendToSplitContent : option jsstring;
  saved_deleteOriginalNote : option bool
}.

Definition or_default {A : Type} (saved : option A) (default : A) : A :=
  match saved with Some a => a | None => default end.

(** [Object.assign({}, defaults, data)]: the keys of [data] over those of
    [defaults]; a [null] source is skipped. *)
Definition Object_assign (defaults : NoteSplitterSettings)
           (data : option SavedData) : NoteSplitterSettings :=
  match data with
  | None => defaults
  | Some data => {|
      saveFolderPath :=
        or_default (saved_saveFolderPath data) (saveFolderPath defaults);
      useContentAsTitle :=
        or_default (saved_useContentAsTitle data) (useContentAsTitle defaults);
      delimiter := or_default (saved_delimiter data) (delimiter defaults);
      appendToSplitContent :=
        or_default (saved_appendToSplitContent data)
                   (appendToSplitContent defaults);
      deleteOriginalNote :=
        or_default (saved_deleteOriginalNote data) (deleteOriginalNote defaults)
    |}
  end.

(** The object [saveData] receives from [saveSettings]: every key of the
    settings. *)
Definition to_data (settings : NoteSplitterSettings) : SavedData := {|
  saved_saveFolderPath := Some (saveFolderPath settings);
  saved_useContentAsTitle := Some (useContentAsTitle settings);
  saved_delimiter := Some (delimiter settings);
  saved_appendToSplitContent := Some (appendToSplitContent settings);
  saved_deleteOriginalNote := Some (deleteOriginalNote settings)
|}.

(** [Plugin.loadData] and [Plugin.saveData]. *)
Record DataStore (World : Type) := {
  loadData : World -> result (option SavedData) * World;
  saveData : SavedData -> World -> result unit * World
}.
Arguments loadData {World} d.
Arguments saveData {World} d.

(** Lines 150-152; the result is the new value of [this.settings]. *)
Definition loadSettings {World : Type} (store : DataStore World) (w : World)
  : result NoteSplitterSettings * World :=
  match loadData store w with
  | (Ok data, w') => (Ok (Object_assign DEFAULT_SETTINGS data), w')
  | (Throw err, w') => (Throw err, w')
  end.

(** Lines 154-156. *)
Definition saveSettings {World : Type} (store : DataStore World)
           (settings : NoteSplitterSettings) (w : World)
  : result unit * World :=
  saveData store (to_data settings) w.

(** More readings of a trace: the data of the first attempts, and the
    calls made before the loop. *)
Fixpoint firstBodies (tr : trace) : list jsstring :=
  match tr with
  | [] => []
  | EvCreate First _ data _ :: tr' => data :: firstBodies tr'
  | _ :: tr' => firstBodies tr'
  end.

Definition writes_data (e : event) : list jsstring :=
  match e with EvCreate _ _ data _ => [data] | _ => [] end.

Definition setup (e : event) : bool :=
  match e with
  | EvCachedRead _ _ | EvCreateFolder _ _ => true
  | _ => false
  end.

(** The calls of [crypto.randomUUID] and all the calls of [vault.create]. *)
Definition drawn (e : event) : bool :=
  match e with EvRandomUUID _ => true | _ => false end.

Definition create_called (e : event) : bool :=
  match e with EvCreate _ _ _ _ => true | _ => false end.

(** A data file that keeps the last object saved. *)
Module DataFile.

Definition World := option SavedData.

Definition store : DataStore World := {|
  loadData := fun w => (Ok w, w);
  saveData := fun data _ => (Ok tt, Some data)
|}.

End DataFile.

(** ** Occurrences, [startsWith] and [indexOf] *)

Section Occurrences.

Lemma startsWith_true (d t : jsstring) :
  startsWith d t = true <-> exists b, t = d ++ b.
Proof.
  revert t; induction d as [|x d IH]; intros t; simpl.
  - split; [intros _; now exists t | reflexivity].
  - destruct t as [|y t].
    + split; [discriminate | intros [b Hb]; discriminate].
    + rewrite andb_true_iff, N.eqb_eq, IH. split.
      * intros [-> [b ->]]. now exists b.
      * intros [b Hb]. injection Hb as -> ->. split; [reflexivity | now exists b].
Qed.

Lemma startsWith_false_head (d t b : jsstring) :
  startsWith d t = false -> t <> d ++ b.
Proof.
  intros Hf Heq.
  assert (Ht : startsWith d t = true) by (apply startsWith_true; now exists b).
  congruence.
Qed.

Lemma indexOf_Some (d t : jsstring) (q : nat) :
  indexOf d t = Some q ->
  exists s rest, t = s ++ d ++ rest /\ length s = q
    /\ (forall a b, t = a ++ d ++ b -> q <= length a).
Proof.
  revert q; induction t as [|c t IH]; intros q; simpl.
  - destruct (startsWith d []) eqn:E; [|discriminate].
    intros [= <-]. apply startsWith_true in E as [b Hb].
    exists [], b. repeat split; auto. intros; lia.
  - destruct (startsWith d (c :: t)) eqn:E.
    + intros [= <-]. apply startsWith_true in E as [b Hb].
      exists [], b. repeat split; auto. intros; lia.
    + destruct (indexOf d t) as [q'|] eqn:Eq; simpl; [|discriminate].
      intros [= <-]. destruct (IH q' eq_refl) as (s & rest & Ht & Hlen & Hleft).
      exists (c :: s), rest. repeat split.
      * simpl. now rewrite <- Ht.
      * simpl. now rewrite Hlen.
      * intros a b Hab. destruct a as [|c' a].
        -- exfalso. exact (startsWith_false_head _ _ _ E Hab).
        -- simpl in Hab. injection Hab as _ Hab. simpl.
           apply le_n_S. now apply (Hleft a b).
Qed.

Lemma indexOf_None (d t : jsstring) :
  indexOf d t = None -> ~ occurs d t.
Proof.
  induction t as [|c t IH]; simpl.
  - destruct (startsWith d []) eqn:E; [discriminate|].
    intros _ (a & b & Hab). destruct a as [|? ?]; [|discriminate].
    exact (startsWith_false_head _ _ _ E Hab).
  - destruct (startsWith d (c :: t)) eqn:E; [discriminate|].
    destruct (indexOf d t) eqn:Eq; simpl; [discriminate|].
    intros _ (a & b & Hab). destruct a as [|c' a].
    + exact (startsWith_false_head _ _ _ E Hab).
    + simpl in Hab. injection Hab as _ Hab.
      apply IH; [reflexivity | now exists a, b].
Qed.

Lemma includes_true (t d : jsstring) :
  includes t d = true <-> occurs d t.
Proof.
  unfold includes. destruct (indexOf d t) as [q|] eqn:E.
  - split; [intros _ | reflexivity].
    destruct (indexOf_Some _ _ _ E) as (s & rest & Ht & _). now exists s, rest.
  - split; [discriminate | intros H; now apply indexOf_None in E].
Qed.

End Occurrences.

(** ** [split] cuts at the occurrences of the separator *)

Section Split.

Variable d : jsstring.
Hypothesis d_nonempty : d <> [].

Lemma d_length_pos : 0 < length d.
Proof. destruct d; [contradiction | simpl; lia]. Qed.

Lemma split_loop_is_split (fuel : nat) (t : jsstring) :
  length t <= fuel -> is_split d t (split_loop fuel d t).
Proof.
  revert t; induction fuel as [|fuel IH]; intros t Hlen; simpl.
  - apply is_split_end. intros (a & b & Hab).
    rewrite Hab, !length_app in Hlen. pose proof d_length_pos. lia.
  - destruct (indexOf d t) as [q|] eqn:E.
    + destruct (indexOf_Some _ _ _ E) as (s & rest & Ht & Hq & Hleft).
      assert (Hf : firstn q t = s).
      { rewrite Ht, <- Hq. now rewrite firstn_app, Nat.sub_diag, firstn_all, app_nil_r. }
      assert (Hs : skipn (q + length d) t = rest).
      { rewrite Ht, app_assoc, <- Hq, <- length_app.
        now rewrite skipn_app, Nat.sub_diag, skipn_all, app_nil_l. }
      rewrite Hf, Hs. rewrite Ht at 1. apply is_split_cut.
      * intros a b Hab. rewrite Hq. apply (Hleft a (b ++ rest)).
        rewrite Ht, app_assoc, Hab. now rewrite <- !app_assoc.
      * apply IH. rewrite Ht, !length_app in Hlen. pose proof d_length_pos. lia.
    + apply is_split_end. now apply indexOf_None.
Qed.

Lemma split_is_split (t : jsstring) : is_split d t (split t d).
Proof.
  pose proof (split_loop_is_split (length t) t (le_n _)) as H.
  revert H. unfold split. generalize d_nonempty. generalize d.
  intros [|x l] Hne H; [contradiction | exact H].
Qed.

Lemma is_split_join (t : jsstring) (segs : list jsstring) :
  is_split d t segs -> join d segs = t.
Proof.
  induction 1 as [t _ | s rest segs _ Hsp IH]; [reflexivity|].
  simpl. destruct segs as [|s' segs]; [inversion Hsp|]. now rewrite IH.
Qed.

Lemma is_split_free (t : jsstring) (segs : list jsstring) :
  is_split d t segs -> Forall (fun s => ~ occurs d s) segs.
Proof.
  induction 1 as [t Hno | s rest segs Hleft _ IH].
  - now constructor.
  - constructor; [|exact IH]. intros (a & b & Hab).
    specialize (Hleft a (b ++ d)). rewrite Hab, !length_app in Hleft.
    pose proof d_length_pos.
    assert (length a + (length d + length b) <= length a); [|lia].
    apply Hleft. now rewrite <- !app_assoc.
Qed.

Lemma is_split_nonempty (t : jsstring) (segs : list jsstring) :
  is_split d t segs -> segs <> [].
Proof. destruct 1; discriminate. Qed.

End Split.

(** ** The cut is determined by the text and the separator *)

Lemma prefix_of_common (x y u v : jsstring) :
  x ++ y = u ++ v -> length x <= length u -> exists b, u = x ++ b.
Proof.
  intros H Hlen. destruct (app_eq_app _ _ _ _ H) as [l [[H1 H2]|[H1 H2]]].
  - assert (l = []) as ->.
    { rewrite H1, length_app in Hlen. destruct l; [reflexivity | simpl in Hlen; lia]. }
    exists []. now rewrite H1, !app_nil_r.
  - now exists l.
Qed.

Lemma is_split_cut_unique (d s1 r1 s2 r2 : jsstring) :
  (forall a b, s1 ++ d = a ++ d ++ b -> length s1 <= length a) ->
  (forall a b, s2 ++ d = a ++ d ++ b -> length s2 <= length a) ->
  s1 ++ d ++ r1 = s2 ++ d ++ r2 -> s1 = s2 /\ r1 = r2.
Proof.
  intros H1 H2 Heq.
  assert (Hlen : length s1 = length s2).
  { destruct (Nat.lt_trichotomy (length s1) (length s2)) as [Hlt | [He | Hgt]];
      [exfalso | exact He | exfalso].
    - rewrite !app_assoc in Heq.
      destruct (prefix_of_common _ _ _ _ Heq) as [b Hb].
      { rewrite !length_app. lia. }
      specialize (H2 s1 b). rewrite <- app_assoc in Hb. specialize (H2 Hb). lia.
    - symmetry in Heq. rewrite !app_assoc in Heq.
      destruct (prefix_of_common _ _ _ _ Heq) as [b Hb].
      { rewrite !length_app. lia. }
      specialize (H1 s2 b). rewrite <- app_assoc in Hb. specialize (H1 Hb). lia. }
  destruct (app_eq_app _ _ _ _ Heq) as [l [[E1 E2]|[E1 E2]]].
  - assert (l = []) as ->.
    { rewrite E1, length_app in Hlen. destruct l; [reflexivity | simpl in Hlen; lia]. }
    rewrite app_nil_r in E1. simpl in E2. split; [exact E1|].
    symmetry. now apply app_inv_head in E2.
  - assert (l = []) as ->.
    { rewrite E1, length_app in Hlen. destruct l; [reflexivity | simpl in Hlen; lia]. }
    rewrite app_nil_r in E1. simpl in E2. split; [now symmetry|].
    now apply app_inv_head in E2.
Qed.

Lemma is_split_functional (d t : jsstring) (l1 l2 : list jsstring) :
  is_split d t l1 -> is_split d t l2 -> l1 = l2.
Proof.
  intros H1; revert l2.
  induction H1 as [t Hno | s rest segs Hleft Hsp IH]; intros l2 H2.
  - inversion H2 as [t' _ | s2 rest2 segs2 _ _ Ht]; subst; [reflexivity|].
    exfalso. apply Hno. now exists s2, rest2.
  - inversion H2 as [t' Hno | s2 rest2 segs2 Hleft2 Hsp2 Ht]; subst.
    + exfalso. apply Hno. now exists s, rest.
    + destruct (is_split_cut_unique _ _ _ _ _ Hleft2 Hleft Ht) as [-> ->].
      f_equal. now apply IH.
Qed.

Lemma is_split_cons (d : jsstring) (c : code_unit) (t p0 : jsstring)
      (P : list jsstring) :
  startsWith d (c :: t) = false ->
  is_split d t (p0 :: P) -> is_split d (c :: t) ((c :: p0) :: P).
Proof.
  intros Hsw H. inversion H as [t' Hno | s rest segs Hleft Hsp Ht]; subst.
  - apply is_split_end. intros (a & b & Hab). destruct a as [|c' a].
    + exact (startsWith_false_head _ _ _ Hsw Hab).
    + injection Hab as _ Hab. apply Hno. now exists a, b.
  - change (c :: p0 ++ d ++ rest) with ((c :: p0) ++ d ++ rest).
    apply is_split_cut; [|exact Hsp].
    intros a b Hab. destruct a as [|c' a].
    + exfalso. apply (startsWith_false_head _ _ (b ++ rest) Hsw).
      change (c :: p0 ++ d ++ rest) with ((c :: p0) ++ d ++ rest).
      rewrite app_assoc, Hab. simpl. now rewrite <- app_assoc.
    + injection Hab as _ Hab. simpl. apply le_n_S. now apply (Hleft a b).
Qed.

(** ** [trim] *)

Lemma trimStart_spec (s : jsstring) :
  exists l, s = l ++ trimStart s /\ forallb is_ws l = true
    /\ (forall c r, trimStart s = c :: r -> is_ws c = false).
Proof.
  induction s as [|c s (l & Hs & Hl & Hhd)]; simpl.
  - exists []. repeat split; auto. discriminate.
  - destruct (is_ws c) eqn:E.
    + exists (c :: l). simpl. rewrite E, Hl. repeat split; auto. now rewrite <- Hs.
    + exists []. split; [reflexivity|]. split; [reflexivity|].
      intros c' r Hcr. injection Hcr as <- _. exact E.
Qed.

Lemma trimEnd_spec (s : jsstring) :
  exists w, s = trimEnd s ++ w /\ forallb is_ws w = true
    /\ (forall c r, trimEnd s = r ++ [c] -> is_ws c = false).
Proof.
  unfold trimEnd. destruct (trimStart_spec (rev s)) as (l & Hs & Hl & Hhd).
  exists (rev l). repeat split.
  - rewrite <- rev_app_distr, <- Hs. now rewrite rev_involutive.
  - rewrite forallb_forall in *. intros x Hx. apply Hl. now apply in_rev.
  - intros c r Hr. apply (Hhd c (rev r)).
    rewrite <- (rev_involutive (trimStart (rev s))), Hr, rev_app_distr. reflexivity.
Qed.

Lemma trim_is_trim (s : jsstring) : is_trim s (trim s).
Proof.
  unfold trim. destruct (trimStart_spec s) as (l & Hs & Hl & Hhd).
  destruct (trimEnd_spec (trimStart s)) as (w & Hs' & Hw & Hlast).
  exists l, w. repeat split; auto.
  - now rewrite <- Hs'.
  - intros c r' Hr. rewrite Hr in Hs'. exact (Hhd c (r' ++ w) Hs').
Qed.

Lemma is_trim_occurs (d s r : jsstring) :
  is_trim s r -> occurs d r -> occurs d s.
Proof.
  intros (l & w & Hs & _) (a & b & Hr). exists (l ++ a), (b ++ w).
  rewrite Hs, Hr. now rewrite <- !app_assoc.
Qed.

Lemma eqb_nil (s : jsstring) : eqb s [] = true <-> s = [].
Proof.
  unfold eqb. destruct (list_eq_dec _ _ _) as [e|n].
  - split; intros _; [exact e | reflexivity].
  - split; intros H; [discriminate H | contradiction].
Qed.

Lemma filter_trim_trimmed_nonempty (segs : list jsstring) :
  trimmed_nonempty segs
    (filter (fun content => negb (eqb content []))
            (map (fun content => trim content) segs)).
Proof.
  induction segs as [|s segs IH]; simpl; [constructor|].
  destruct (eqb (trim s) []) eqn:E; simpl.
  - apply tn_drop; [|exact IH]. apply eqb_nil in E. rewrite <- E. apply trim_is_trim.
  - apply tn_keep; [apply trim_is_trim | | exact IH].
    intros Hnil. apply eqb_nil in Hnil. congruence.
Qed.

Lemma trimmed_nonempty_sound (segs out : list jsstring) :
  trimmed_nonempty segs out ->
  Forall (fun f => f <> [] /\ ~ whitespace_only f) out.
Proof.
  induction 1 as [| | s r segs out (l & w & _ & _ & _ & Hhd & _) Hne _ IH]; auto.
  constructor; [|exact IH]. split; [exact Hne|].
  unfold whitespace_only. destruct r as [|c r]; [contradiction|].
  simpl. rewrite (Hhd c r eq_refl). discriminate.
Qed.

Lemma trimmed_nonempty_from (segs out : list jsstring) :
  trimmed_nonempty segs out ->
  Forall (fun f => exists s, In s segs /\ is_trim s f) out.
Proof.
  induction 1 as [| s segs out _ _ IH | s r segs out Ht _ _ IH].
  - constructor.
  - eapply Forall_impl; [|exact IH]. intros f (s' & Hin & Hf).
    exists s'. split; [now right | exact Hf].
  - constructor.
    + exists s. split; [now left | exact Ht].
    + eapply Forall_impl; [|exact IH]. intros f (s' & Hin & Hf).
      exists s'. split; [now right | exact Hf].
Qed.

(** ** The write loop *)

Section WriteLoop.

Context {World : Type}.
Variable host : Host World.
Variable utils : Utils.
Variable settings : NoteSplitterSettings.
Variable folderPath : jsstring.

Lemma updatedContent_bodyOf (originalContent : jsstring) :
  (if 0 <? length (appendToSplitContent settings)
   then originalContent ++ appendToSplitContent settings
   else originalContent) = bodyOf settings originalContent.
Proof.
  unfold bodyOf. destruct (appendToSplitContent settings); simpl.
  - now rewrite app_nil_r.
  - reflexivity.
Qed.

Lemma fileNameOf_named (i : nat) (originalContent : jsstring) (w : World) :
  exists fileName w' tn,
    fileNameOf host utils settings i originalContent w = (Ok fileName, w', tn)
    /\ named utils settings i originalContent fileName tn.
Proof.
  unfold fileNameOf. destruct (useContentAsTitle settings) eqn:E.
  - eexists _, w, []. split; [reflexivity|]. now apply named_title.
  - unfold bind, date_now, ret. destruct (Date_now host w) as [t w'].
    eexists _, w', [EvDateNow t]. split; [reflexivity|].
    now apply named_synthesized.
Qed.

Lemma writeFragment_processed (filesCreated i : nat)
      (originalContent : jsstring) (w : World) :
  exists k w' tr,
    writeFragment host utils settings folderPath filesCreated i
                  originalContent w = (Ok (k + filesCreated), w', tr)
    /\ fragment_processed host utils settings folderPath i originalContent k tr.
Proof.
  unfold writeFragment. rewrite updatedContent_bodyOf.
  destruct (fileNameOf_named i originalContent w) as (fileName & w1 & tn & Hn & Hnamed).
  unfold bind at 1. rewrite Hn.
  fold (filePathOf host folderPath fileName).
  unfold try_catch at 1, bind at 1, vault_create at 1.
  destruct (create host (filePathOf host folderPath fileName)
                   (bodyOf settings originalContent) w1) as [[[]|err] w2].
  - exists 1, w2, (tn ++ [EvCreate First (filePathOf host folderPath fileName)
                                 (bodyOf settings originalContent) None]).
    split; [reflexivity | now apply fp_created].
  - simpl rejection. fold (name_exists err).
    destruct (name_exists err) eqn:Hex.
    + unfold bind at 1, crypto_randomUUID.
      destruct (randomUUID host w2) as [uuid w3].
      fold (conflictPathOf folderPath uuid).
      unfold try_catch, bind at 1, vault_create.
      destruct (create host (conflictPathOf folderPath uuid)
                       (bodyOf settings originalContent) w3) as [[[]|err'] w4].
      * exists 1, w4. eexists. split; [reflexivity|].
        now apply (fp_retry_created _ _ _ _ _ _ _ _ _ _ Hnamed Hex).
      * exists 0, w4. eexists. split; [reflexivity|].
        now apply (fp_retry_failed _ _ _ _ _ _ _ _ _ _ _ Hnamed Hex).
    + exists 0, w2. eexists. split; [reflexivity|].
      now apply (fp_failed _ _ _ _ _ _ _ _ _ Hnamed Hex).
Qed.

Lemma writeLoop_processed (entries : list jsstring) :
  forall (filesCreated i : nat) (w : World),
  exists k w' tr,
    writeLoop host utils settings folderPath filesCreated i entries w
    = (Ok (k + filesCreated), w', tr)
    /\ fragments_processed host utils settings folderPath i entries k tr.
Proof.
  induction entries as [|originalContent rest IH]; intros filesCreated i w.
  - exists 0, w, []. split; [reflexivity | constructor].
  - simpl. unfold bind at 1.
    destruct (writeFragment_processed filesCreated i originalContent w)
      as (k & w1 & tr & Hf & Hp).
    rewrite Hf.
    destruct (IH (k + filesCreated) (S i) w1) as (n & w2 & tr' & Hl & Hps).
    rewrite Hl. exists (k + n), w2, (tr ++ tr'). split.
    + do 2 f_equal. f_equal. lia.
    + now constructor.
Qed.

End WriteLoop.

(** ** The whole command, case by case *)

Section Run.

Context {World : Type}.
Variable host : Host World.
Variable utils : Utils.
Variable settings : NoteSplitterSettings.
Variable file : TFile.

Lemma eqb_false (a : jsstring) : a <> [] -> eqb a [] = false.
Proof.
  intros Ha. destruct (eqb a []) eqn:E; [|reflexivity].
  apply eqb_nil in E. contradiction.
Qed.

Lemma partition_nil (d : jsstring) : d <> [] -> partition [] d = [].
Proof. destruct d; [contradiction | reflexivity]. Qed.

Lemma createFolder_swallowed (folder : jsstring) (w : World) :
  exists rej w',
    try_catch (vault_createFolder host folder) (fun _ => ret tt) w
    = (Ok tt, w', [EvCreateFolder folder rej]).
Proof.
  unfold try_catch, vault_createFolder.
  destruct (createFolder host folder w) as [[[]|e] w'].
  - now exists None, w'.
  - now exists (Some e), w'.
Qed.

Lemma run_no_delimiter (w : World) :
  normalizeDelimiter (delimiter settings) = [] ->
  splitNoteByDelimiter host utils settings file w
  = (Ok tt, w,
     [EvNotice (lit "No delimiter set. Please set a delimiter in the settings.")]).
Proof.
  intros Hd. unfold splitNoteByDelimiter. rewrite Hd. reflexivity.
Qed.

Lemma run_read_rejected (w w1 : World) (err : Error) :
  normalizeDelimiter (delimiter settings) <> [] ->
  cachedRead host file w = (Throw err, w1) ->
  splitNoteByDelimiter host utils settings file w
  = (Throw err, w1, [EvCachedRead file (Some err)]).
Proof.
  intros Hd Hr. unfold splitNoteByDelimiter. rewrite (eqb_false _ Hd).
  unfold bind, vault_cachedRead. rewrite Hr. reflexivity.
Qed.

Lemma run_few_fragments (w w1 : World) (data : jsstring) :
  normalizeDelimiter (delimiter settings) <> [] ->
  cachedRead host file w = (Ok data, w1) ->
  length (fragmentsOf utils settings data) < 2 ->
  splitNoteByDelimiter host utils settings file w
  = (Ok tt, w1,
     [EvCachedRead file None;
      EvNotice (if length (fragmentsOf utils settings data) =? 0
                then lit "No content to split."
                else lit "Only one section of content found. Nothing to split.")]).
Proof.
  intros Hd Hr Hlen. unfold splitNoteByDelimiter. rewrite (eqb_false _ Hd).
  unfold bind at 1, vault_cachedRead. rewrite Hr.
  unfold fragmentsOf in *.
  destruct (eqb (removeFrontmatterBlock utils data) []) eqn:E.
  - apply eqb_nil in E. rewrite E, (partition_nil _ Hd). reflexivity.
  - destruct (length (partition (removeFrontmatterBlock utils data)
                                (normalizeDelimiter (delimiter settings))))
      as [|[|n]]; [reflexivity | reflexivity | lia].
Qed.

Lemma run_materialized (w w1 : World) (data : jsstring) :
  normalizeDelimiter (delimiter settings) <> [] ->
  cachedRead host file w = (Ok data, w1) ->
  2 <= length (fragmentsOf utils settings data) ->
  exists r w' tr,
    splitNoteByDelimiter host utils settings file w = (r, w', tr)
    /\ materialized host utils settings file (fragmentsOf utils settings data)
                    r tr.
Proof.
  intros Hd Hr Hlen. unfold splitNoteByDelimiter. rewrite (eqb_false _ Hd).
  unfold bind at 1, vault_cachedRead. rewrite Hr.
  unfold fragmentsOf in *.
  destruct (eqb (removeFrontmatterBlock utils data) []) eqn:E.
  { apply eqb_nil in E. rewrite E, (partition_nil _ Hd) in Hlen.
    simpl in Hlen. lia. }
  set (fragments := partition (removeFrontmatterBlock utils data)
                              (normalizeDelimiter (delimiter settings))) in *.
  destruct (length fragments =? 0) eqn:E0; [apply Nat.eqb_eq in E0; lia|].
  destruct (length fragments =? 1) eqn:E1; [apply Nat.eqb_eq in E1; lia|].
  unfold bind at 1.
  destruct (createFolder_swallowed (folderPathOf settings file) w1)
    as (rej & w2 & Hf).
  rewrite Hf.
  unfold bind at 1.
  destruct (writeLoop_processed host utils settings (folderPathOf settings file)
              fragments 0 0 w2) as (k & w3 & tr & Hl & Hps).
  rewrite Nat.add_0_r in Hl. rewrite Hl.
  unfold bind at 1.
  destruct ((k =? length fragments) && deleteOriginalNote settings) eqn:Hdel.
  - unfold vault_delete.
    destruct (delete host file w3) as [[[]|err] w4].
    + exists (Ok tt), w4. eexists. split; [reflexivity|].
      apply (mat_deleted host utils settings file fragments rej k tr Hps Hdel).
    + exists (Throw err), w4. eexists. split.
      * simpl. reflexivity.
      * apply (mat_delete_rejected host utils settings file fragments rej k tr err
                                   Hps Hdel).
  - exists (Ok tt), w3. eexists. split; [reflexivity|].
    apply (mat_kept host utils settings file fragments rej k tr Hps Hdel).
Qed.

End Run.

(** ** Reading a trace *)

Lemma notices_app (a b : trace) : notices (a ++ b) = notices a ++ notices b.
Proof.
  induction a as [|e a IH]; [reflexivity|].
  destruct e; simpl; now rewrite ?IH.
Qed.

Lemma firstAttempts_app (a b : trace) :
  firstAttempts (a ++ b) = firstAttempts a ++ firstAttempts b.
Proof.
  induction a as [|e a IH]; [reflexivity|].
  destruct e as [| | | | |[] | | |]; simpl; now rewrite ?IH.
Qed.

Lemma deletions_app (a b : trace) :
  deletions (a ++ b) = deletions a ++ deletions b.
Proof.
  induction a as [|e a IH]; [reflexivity|].
  destruct e; simpl; now rewrite ?IH.
Qed.

Lemma clockReadings_app (a b : trace) :
  clockReadings (a ++ b) = clockReadings a ++ clockReadings b.
Proof.
  induction a as [|e a IH]; [reflexivity|].
  destruct e; simpl; now rewrite ?IH.
Qed.

Lemma filesCreatedIn_app (a b : trace) :
  filesCreatedIn (a ++ b) = filesCreatedIn a + filesCreatedIn b.
Proof. unfold filesCreatedIn. now rewrite filter_app, length_app. Qed.

Section ProcessedFacts.

Context {World : Type}.
Variable host : Host World.
Variable utils : Utils.
Variable settings : NoteSplitterSettings.
Variable folderPath : jsstring.

Lemma error_notice_is_error (err : Error) :
  is_error_notice (lit "Error creating file: " ++ message err).
Proof. now exists err. Qed.

(** One fragment: what its trace adds to each reading. *)
Lemma processed_facts (i : nat) (c : jsstring) (k : nat) (tr : trace) :
  fragment_processed host utils settings folderPath i c k tr ->
  filesCreatedIn tr = k /\ k <= 1
  /\ length (firstAttempts tr) = 1
  /\ deletions tr = []
  /\ Forall is_error_notice (notices tr)
  /\ filter mutation tr = filter (fun e => match e with EvCreate _ _ _ _ => true | _ => false end) tr
  /\ length (filter retried tr) = length (filter conflicted tr).
Proof.
  destruct 1 as [fileName tn Hn | fileName tn err uuid Hn Hex
                | fileName tn err uuid err' Hn Hex | fileName tn err Hn Hex];
    destruct Hn; simpl; unfold filesCreatedIn; simpl;
    try (unfold name_exists in Hex; rewrite Hex); simpl;
    repeat split; auto;
    repeat constructor; apply error_notice_is_error.
Qed.

Lemma all_processed_facts (i : nat) (entries : list jsstring) (k : nat)
      (tr : trace) :
  fragments_processed host utils settings folderPath i entries k tr ->
  filesCreatedIn tr = k /\ k <= length entries
  /\ length (firstAttempts tr) = length entries
  /\ deletions tr = []
  /\ Forall is_error_notice (notices tr)
  /\ length (filter retried tr) = length (filter conflicted tr).
Proof.
  induction 1 as [i | i c rest k tr n tr' Hp Hps (Hc & Hk & Hf & Hd & Hn & Hr)].
  - repeat split; auto.
  - destruct (processed_facts _ _ _ _ Hp) as (Hc1 & Hk1 & Hf1 & Hd1 & Hn1 & _ & Hr1).
    rewrite filesCreatedIn_app, firstAttempts_app, deletions_app, notices_app,
      !filter_app, !length_app, Hc, Hc1, Hf, Hf1, Hd, Hd1, Hr, Hr1.
    simpl. repeat split; auto; try lia.
    apply Forall_app. now split.
Qed.

(** Without [useContentAsTitle] every fragment takes one reading of the
    clock, and its first attempt goes to the name made from it. *)
Lemma all_processed_synthesized (i : nat) (entries : list jsstring) (k : nat)
      (tr : trace) :
  useContentAsTitle settings = false ->
  fragments_processed host utils settings folderPath i entries k tr ->
  length (clockReadings tr) = length entries
  /\ firstAttempts tr
     = map (filePathOf host folderPath) (synthesizedNames i (clockReadings tr)).
Proof.
  intros Hmode.
  induction 1 as [i | i c rest k tr n tr' Hp Hps [IHl IHf]].
  - split; reflexivity.
  - rewrite clockReadings_app, firstAttempts_app, length_app, IHl, IHf.
    destruct Hp as [fileName tn Hn | fileName tn err uuid Hn Hex
                   | fileName tn err uuid err' Hn Hex | fileName tn err Hn Hex];
      destruct Hn as [Ht | t _]; try congruence; simpl; split; reflexivity.
Qed.

(** With [useContentAsTitle] the first attempt of every fragment goes to
    the name the helpers make of its first line, and the clock is not
    read. *)
Lemma all_processed_titled (i : nat) (entries : list jsstring) (k : nat)
      (tr : trace) :
  useContentAsTitle settings = true ->
  fragments_processed host utils settings folderPath i entries k tr ->
  clockReadings tr = []
  /\ firstAttempts tr
     = map (fun c => filePathOf host folderPath
                       (trimForFileName utils
                          (escapeInvalidFileNameChars utils (firstLine c))
                          (lit ".md")))
           entries.
Proof.
  intros Hmode.
  induction 1 as [i | i c rest k tr n tr' Hp Hps [IHl IHf]].
  - split; reflexivity.
  - rewrite clockReadings_app, firstAttempts_app, IHl, IHf.
    destruct Hp as [fileName tn Hn | fileName tn err uuid Hn Hex
                   | fileName tn err uuid err' Hn Hex | fileName tn err Hn Hex];
      destruct Hn as [_ | t Ht]; try congruence; simpl; split; reflexivity.
Qed.

End ProcessedFacts.

(** ** Delimiter normalization *)

Lemma occurs_length (d t : jsstring) : occurs d t -> length d <= length t.
Proof. intros (a & b & ->). rewrite !length_app. lia. Qed.

Lemma join_cons_head (sep : jsstring) (c : code_unit) (p0 : jsstring)
      (P : list jsstring) :
  join sep ((c :: p0) :: P) = c :: join sep (p0 :: P).
Proof. destruct P; reflexivity. Qed.

Lemma normalizeDelimiter_pieces (n : nat) :
  forall s, length s <= n ->
  exists P, is_split [backslash; letter_n] s P
            /\ normalizeDelimiter s = join [newline] P.
Proof.
  induction n as [|n IH]; intros s Hlen.
  - destruct s; [|simpl in Hlen; lia].
    exists [[]]. split; [|reflexivity].
    apply is_split_end. intros H. apply occurs_length in H. simpl in H. lia.
  - destruct s as [|c [|c2 rest]].
    + exists [[]]. split; [|reflexivity].
      apply is_split_end. intros H. apply occurs_length in H. simpl in H. lia.
    + exists [[c]]. split; [|reflexivity].
      apply is_split_end. intros H. apply occurs_length in H. simpl in H. lia.
    + cbn [normalizeDelimiter].
      destruct (N.eqb c backslash && N.eqb c2 letter_n)%bool eqn:E.
      * apply andb_true_iff in E as [Ec Ec2].
        apply N.eqb_eq in Ec, Ec2. subst c c2.
        destruct (IH rest) as (P & Hsp & Hj); [simpl in Hlen; lia|].
        exists ([] :: P). split.
        -- apply (is_split_cut [backslash; letter_n] [] rest P); [|exact Hsp].
           intros a b _. simpl. lia.
        -- rewrite Hj. destruct P; [inversion Hsp | reflexivity].
      * destruct (IH (c2 :: rest)) as (P & Hsp & Hj); [simpl in *; lia|].
        destruct P as [|p0 P]; [inversion Hsp|].
        exists ((c :: p0) :: P). split.
        -- apply is_split_cons; [|exact Hsp]. cbn [startsWith].
           rewrite andb_true_r, (N.eqb_sym backslash c), (N.eqb_sym letter_n c2).
           exact E.
        -- rewrite join_cons_head. f_equal. exact Hj.
Qed.

Lemma normalizeDelimiter_nil (d : jsstring) :
  normalizeDelimiter d = [] <-> d = [].
Proof.
  split; [|now intros ->].
  destruct d as [|c [|c2 rest]]; [reflexivity | discriminate |].
  cbn [normalizeDelimiter].
  destruct (N.eqb c backslash && N.eqb c2 letter_n)%bool; discriminate.
Qed.

(** C3. [delimiter.replace(/\\n/g, "\n")] cuts the raw delimiter at the
    occurrences of backslash-n, found from left to right, and puts one
    newline in the place of each: it is the raw delimiter split at
    backslash-n and joined with newline.  The pieces between the
    occurrences are copied as they are, and a delimiter without
    backslash-n is returned unchanged.  The result of the pass is not
    scanned again. *)
Theorem normalizeDelimiter_replaces_each_escape (d : jsstring) :
  is_split [backslash; letter_n] d (split d [backslash; letter_n])
  /\ join [backslash; letter_n] (split d [backslash; letter_n]) = d
  /\ normalizeDelimiter d = join [newline] (split d [backslash; letter_n])
  /\ (~ occurs [backslash; letter_n] d -> normalizeDelimiter d = d)
  /\ normalizeDelimiter [backslash; backslash; letter_n] = [backslash; newline].
Proof.
  assert (Hne : [backslash; letter_n] <> []) by discriminate.
  pose proof (split_is_split _ Hne d) as Hsp.
  destruct (normalizeDelimiter_pieces (length d) d (le_n _)) as (P & HP & Hj).
  rewrite (is_split_functional _ _ _ _ HP Hsp) in Hj.
  repeat split; auto.
  - now apply is_split_join.
  - intros Hno. rewrite Hj.
    now rewrite (is_split_functional _ _ _ _ Hsp (is_split_end _ _ Hno)).
Qed.

(** ** Partitioning *)

(** C2. For a non-empty delimiter [d], the fragments of [T] are obtained
    by cutting [T] at the literal occurrences of [d] (joining the segments
    with [d] gives [T] back), trimming the white space at both ends of
    each segment and dropping the segments that are then empty, in the
    order of the text; no fragment is empty or made of white space only. *)
Theorem partition_splits_trims_and_drops (T d : jsstring) :
  d <> [] ->
  is_split d T (split T d)
  /\ join d (split T d) = T
  /\ trimmed_nonempty (split T d) (partition T d)
  /\ Forall (fun f => f <> [] /\ ~ whitespace_only f) (partition T d).
Proof.
  intros Hd. pose proof (split_is_split d Hd T) as Hsp.
  pose proof (filter_trim_trimmed_nonempty (split T d)) as Htn.
  repeat split; auto.
  - now apply is_split_join.
  - now apply (trimmed_nonempty_sound (split T d)).
Qed.

Lemma partition_splits_trims_and_drops_witness :
  lit "---" <> []
  /\ (is_split (lit "---") Vault.abc (split Vault.abc (lit "---"))
      /\ join (lit "---") (split Vault.abc (lit "---")) = Vault.abc
      /\ trimmed_nonempty (split Vault.abc (lit "---"))
                          (partition Vault.abc (lit "---"))
      /\ Forall (fun f => f <> [] /\ ~ whitespace_only f)
                (partition Vault.abc (lit "---"))).
Proof.
  split; [discriminate|].
  apply (partition_splits_trims_and_drops Vault.abc (lit "---")). discriminate.
Defined.

(** The note [A / --- / B / --- / C] with the delimiter [---]. *)
Example partition_abc :
  partition Vault.abc (lit "---") = [lit "A"; lit "B"; lit "C"].
Proof. reflexivity. Qed.

(** The delimiter is text, not a pattern: a dot cuts at dots only. *)
Example partition_dot :
  partition (lit "a.b") (lit ".") = [lit "a"; lit "b"]
  /\ partition (lit "axb") (lit ".") = [lit "axb"].
Proof. split; reflexivity. Qed.

(** C9. For a non-empty delimiter, no fragment contains the delimiter. *)
Theorem fragments_are_free_of_delimiter (T d : jsstring) :
  d <> [] ->
  Forall (fun f => ~ occurs d f) (partition T d).
Proof.
  intros Hd.
  pose proof (is_split_free d Hd T _ (split_is_split d Hd T)) as Hfree.
  pose proof (trimmed_nonempty_from _ _ (filter_trim_trimmed_nonempty (split T d)))
    as Hfrom.
  fold (partition T d) in Hfrom.
  rewrite Forall_forall in *. intros f Hf Hocc.
  destruct (Hfrom f Hf) as (s & Hin & Htrim).
  apply (Hfree s Hin). exact (is_trim_occurs d s f Htrim Hocc).
Qed.

Lemma fragments_are_free_of_delimiter_witness :
  lit "---" <> []
  /\ Forall (fun f => ~ occurs (lit "---") f) (partition Vault.abc (lit "---")).
Proof.
  split; [discriminate|].
  apply (fragments_are_free_of_delimiter Vault.abc (lit "---")). discriminate.
Defined.

(** ** Runs that stop before the write loop *)

(** C8. When the delimiter normalizes to the empty string the run shows
    the notice about the missing delimiter and does nothing else: the note
    is not read, no folder or file is created, nothing is deleted, and the
    host is left as it was. *)
Theorem empty_delimiter_is_reported {World : Type} (host : Host World)
        (utils : Utils) (settings : NoteSplitterSettings) (file : TFile)
        (w : World) :
  normalizeDelimiter (delimiter settings) = [] ->
  splitNoteByDelimiter host utils settings file w
  = (Ok tt, w,
     [EvNotice (lit "No delimiter set. Please set a delimiter in the settings.")]).
Proof. apply run_no_delimiter. Qed.

Lemma empty_delimiter_is_reported_witness :
  normalizeDelimiter (delimiter Vault.blank) = []
  /\ splitNoteByDelimiter Vault.host SpecUtils.utils Vault.blank Vault.note
       (Vault.world Vault.abc [] 5 false)
     = (Ok tt, Vault.world Vault.abc [] 5 false,
        [EvNotice (lit "No delimiter set. Please set a delimiter in the settings.")]).
Proof.
  split; [reflexivity|].
  apply (empty_delimiter_is_reported Vault.host SpecUtils.utils Vault.blank
           Vault.note (Vault.world Vault.abc [] 5 false)).
  reflexivity.
Defined.

(** C5. When the text read yields no fragment, or exactly one, the run
    ends normally after the read with one notice, and calls nothing that
    creates a folder or a file or deletes the note; the notice for no
    fragment and the notice for one fragment are different. *)
Theorem nothing_to_split_is_reported {World : Type} (host : Host World)
        (utils : Utils) (settings : NoteSplitterSettings) (file : TFile)
        (w w1 : World) (data : jsstring) :
  normalizeDelimiter (delimiter settings) <> [] ->
  cachedRead host file w = (Ok data, w1) ->
  (length (fragmentsOf utils settings data) = 0 ->
   splitNoteByDelimiter host utils settings file w
   = (Ok tt, w1, [EvCachedRead file None;
                  EvNotice (lit "No content to split.")]))
  /\ (length (fragmentsOf utils settings data) = 1 ->
      splitNoteByDelimiter host utils settings file w
      = (Ok tt, w1,
         [EvCachedRead file None;
          EvNotice (lit "Only one section of content found. Nothing to split.")]))
  /\ (length (fragmentsOf utils settings data) < 2 ->
      filter mutation
        (trace_of (splitNoteByDelimiter host utils settings file w)) = [])
  /\ lit "No content to split."
     <> lit "Only one section of content found. Nothing to split.".
Proof.
  intros Hd Hr. repeat split.
  - intros H0.
    rewrite (run_few_fragments host utils settings file w w1 data Hd Hr); [|lia].
    now rewrite H0.
  - intros H1.
    rewrite (run_few_fragments host utils settings file w w1 data Hd Hr); [|lia].
    now rewrite H1.
  - intros Hlt.
    now rewrite (run_few_fragments host utils settings file w w1 data Hd Hr Hlt).
  - discriminate.
Qed.

Lemma nothing_to_split_is_reported_witness :
  normalizeDelimiter (delimiter Vault.dashes) <> []
  /\ cachedRead Vault.host Vault.note (Vault.world Vault.one_part [] 5 false)
     = (Ok Vault.one_part, Vault.world Vault.one_part [] 5 false)
  /\ length (fragmentsOf SpecUtils.utils Vault.dashes Vault.one_part) = 1
  /\ splitNoteByDelimiter Vault.host SpecUtils.utils Vault.dashes Vault.note
       (Vault.world Vault.one_part [] 5 false)
     = (Ok tt, Vault.world Vault.one_part [] 5 false,
        [EvCachedRead Vault.note None;
         EvNotice (lit "Only one section of content found. Nothing to split.")]).
Proof.
  split; [discriminate|]. split; [reflexivity|]. split; [reflexivity|].
  apply (nothing_to_split_is_reported Vault.host SpecUtils.utils Vault.dashes
           Vault.note (Vault.world Vault.one_part [] 5 false)
           (Vault.world Vault.one_part [] 5 false) Vault.one_part).
  - discriminate.
  - reflexivity.
  - reflexivity.
Defined.

(** ** The write loop never stops early *)

(** C6. The loop processes every fragment, in order, and ends normally.
    A fragment whose first [vault.create] is rejected with a message that
    contains [already exists] is retried once, at
    [folderPath/Split conflict <uuid>.md] with the same body; a fragment
    is counted when its first attempt or its retry resolves, and is not
    counted when the retry is rejected or when the first attempt is
    rejected for another reason, after which the next fragment is
    processed. *)
Theorem fragment_failures_do_not_abort {World : Type} (host : Host World)
        (utils : Utils) (settings : NoteSplitterSettings)
        (folderPath : jsstring) (entries : list jsstring)
        (filesCreated i : nat) (w : World) :
  exists k w' tr,
    writeLoop host utils settings folderPath filesCreated i entries w
    = (Ok (k + filesCreated), w', tr)
    /\ fragments_processed host utils settings folderPath i entries k tr
    /\ filesCreatedIn tr = k
    /\ length (firstAttempts tr) = length entries
    /\ length (filter retried tr) = length (filter conflicted tr).
Proof.
  destruct (writeLoop_processed host utils settings folderPath entries
              filesCreated i w) as (k & w' & tr & Hl & Hps).
  destruct (all_processed_facts host utils settings folderPath i entries k tr Hps)
    as (Hc & _ & Hf & _ & _ & Hr).
  exists k, w', tr. repeat split; auto.
Qed.

(** ** After the loop: deletion and summary *)

Section Materialized.

Context {World : Type}.
Variable host : Host World.
Variable utils : Utils.
Variable settings : NoteSplitterSettings.
Variable file : TFile.

Lemma delete_condition (k n : nat) :
  (k =? n) && deleteOriginalNote settings = true
  <-> k = n /\ deleteOriginalNote settings = true.
Proof. now rewrite andb_true_iff, Nat.eqb_eq. Qed.

Lemma materialized_counts (fragments : list jsstring) (r : result unit)
      (tr : trace) :
  materialized host utils settings file fragments r tr ->
  filesCreatedIn tr <= length fragments
  /\ length (firstAttempts tr) = length fragments
  /\ (deletions tr = [file]
      /\ filesCreatedIn tr = length fragments
      /\ deleteOriginalNote settings = true
      \/ deletions tr = []
         /\ ~ (filesCreatedIn tr = length fragments
               /\ deleteOriginalNote settings = true)).
Proof.
  destruct 1 as [rej k tr Hps Hdel | rej k tr Hps Hdel | rej k tr err Hps Hdel];
    destruct (all_processed_facts _ _ _ _ _ _ _ _ Hps)
      as (Hc & Hk & Hf & Hd & _ & _);
    rewrite !filesCreatedIn_app, !firstAttempts_app, !deletions_app,
      !length_app, Hc, Hf, Hd;
    unfold filesCreatedIn; simpl; rewrite !Nat.add_0_r, ?app_nil_r;
    (split; [exact Hk|]); (split; [reflexivity|]).
  - right. split; [reflexivity|]. intros H. apply delete_condition in H.
    congruence.
  - left. apply delete_condition in Hdel. tauto.
  - left. apply delete_condition in Hdel. tauto.
Qed.

Lemma materialized_notices (fragments : list jsstring) (r : result unit)
      (tr : trace) :
  materialized host utils settings file fragments r tr ->
  (forall err, ~ In (EvDelete file (Some err)) tr) ->
  r = Ok tt
  /\ exists errors,
       notices tr = errors ++ [summary (filesCreatedIn tr)]
       /\ Forall is_error_notice errors.
Proof.
  destruct 1 as [rej k tr Hps Hdel | rej k tr Hps Hdel | rej k tr err Hps Hdel];
    intros Hno;
    destruct (all_processed_facts _ _ _ _ _ _ _ _ Hps)
      as (Hc & _ & _ & _ & Hn & _).
  - split; [reflexivity|]. exists (notices tr).
    rewrite notices_app, notices_app, filesCreatedIn_app, filesCreatedIn_app, Hc.
    unfold filesCreatedIn; simpl. rewrite Nat.add_0_r. now split.
  - split; [reflexivity|]. exists (notices tr).
    rewrite notices_app, notices_app, filesCreatedIn_app, filesCreatedIn_app, Hc.
    unfold filesCreatedIn; simpl. rewrite Nat.add_0_r. now split.
  - exfalso. apply (Hno err). apply in_or_app. right.
    apply in_or_app. right. now left.
Qed.

Lemma materialized_clock (fragments : list jsstring) (r : result unit)
      (tr : trace) :
  materialized host utils settings file fragments r tr ->
  exists k tr',
    fragments_processed host utils settings (folderPathOf settings file)
                        0 fragments k tr'
    /\ clockReadings tr = clockReadings tr'
    /\ firstAttempts tr = firstAttempts tr'.
Proof.
  destruct 1 as [rej k tr Hps Hdel | rej k tr Hps Hdel | rej k tr err Hps Hdel];
    exists k, tr;
    rewrite clockReadings_app, clockReadings_app, firstAttempts_app,
      firstAttempts_app; simpl; rewrite !app_nil_r; auto.
Qed.

End Materialized.

(** C1. In every run the number of files created is at most the number of
    fragments whose write was attempted; [vault.delete] is called at most
    once and only on the note that is split; it is called if and only if
    the write loop ran, every fragment was written and
    [deleteOriginalNote] is set, so never when some fragment was not
    written.  When the write loop ran, the number of fragments attempted
    is the number of fragments of the text read. *)
Theorem source_deleted_iff_all_fragments_written {World : Type}
        (host : Host World) (utils : Utils) (settings : NoteSplitterSettings)
        (file : TFile) (w : World) :
  let tr := trace_of (splitNoteByDelimiter host utils settings file w) in
  let fragmentsTotal := length (firstAttempts tr) in
  let fragmentsWritten := filesCreatedIn tr in
  fragmentsWritten <= fragmentsTotal
  /\ (deletions tr = [file] \/ deletions tr = [])
  /\ (deletions tr = [file]
      <-> fragmentsTotal <> 0 /\ fragmentsWritten = fragmentsTotal
          /\ deleteOriginalNote settings = true)
  /\ (fragmentsWritten < fragmentsTotal -> deletions tr = [])
  /\ (fragmentsTotal <> 0 ->
      exists data w1,
        cachedRead host file w = (Ok data, w1)
        /\ fragmentsTotal = length (fragmentsOf utils settings data)).
Proof.
  assert (Hstop : forall tr : trace,
             firstAttempts tr = [] -> filesCreatedIn tr = 0 ->
             deletions tr = [] ->
             let fragmentsTotal := length (firstAttempts tr) in
             let fragmentsWritten := filesCreatedIn tr in
             fragmentsWritten <= fragmentsTotal
             /\ (deletions tr = [file] \/ deletions tr = [])
             /\ (deletions tr = [file]
                 <-> fragmentsTotal <> 0 /\ fragmentsWritten = fragmentsTotal
                     /\ deleteOriginalNote settings = true)
             /\ (fragmentsWritten < fragmentsTotal -> deletions tr = [])
             /\ (fragmentsTotal <> 0 ->
                 exists data w1,
                   cachedRead host file w = (Ok data, w1)
                   /\ fragmentsTotal = length (fragmentsOf utils settings data))).
  { intros tr Hf Hc Hd. cbv zeta. rewrite Hf, Hc, Hd. simpl.
    repeat split; auto; try discriminate; try tauto; try lia. }
  destruct (list_eq_dec N.eq_dec (normalizeDelimiter (delimiter settings)) [])
    as [Hd | Hd].
  { rewrite (run_no_delimiter host utils settings file w Hd).
    now apply Hstop. }
  destruct (cachedRead host file w) as [[data | err] w1] eqn:Hr.
  2:{ rewrite (run_read_rejected host utils settings file w w1 err Hd Hr).
      now apply Hstop. }
  destruct (le_lt_dec 2 (length (fragmentsOf utils settings data))) as [Hlen | Hlen].
  2:{ rewrite (run_few_fragments host utils settings file w w1 data Hd Hr Hlen).
      now apply Hstop. }
  destruct (run_materialized host utils settings file w w1 data Hd Hr Hlen)
    as (r & w' & tr & Hrun & Hmat).
  rewrite Hrun. unfold trace_of. simpl snd. cbv zeta.
  destruct (materialized_counts host utils settings file _ r tr Hmat)
    as (Hle & Htotal & Hdel).
  rewrite Htotal. split; [exact Hle|].
  destruct Hdel as [(Hdl & Hall & Hflag) | (Hdl & Hnot)]; rewrite Hdl.
  - repeat split; auto; try lia. exists data, w1. now split.
  - repeat split; auto; try discriminate; try tauto.
    exists data, w1. now split.
Qed.

(** ** The summary *)

Lemma summary_text (n : nat) :
  summary n
  = lit "Split into " ++ of_nat n
    ++ (if n <=? 1 then lit " note." else lit " notes.").
Proof.
  unfold summary. destruct n as [|[|n]]; reflexivity.
Qed.

Lemma summary_is_summary (n : nat) : is_summary (summary n).
Proof. unfold summary, is_summary. eexists. reflexivity. Qed.

Lemma error_notice_not_summary (msg : jsstring) :
  is_error_notice msg -> ~ is_summary msg.
Proof. intros [err ->] [rest H]. discriminate H. Qed.

(** C10 as it stands fails when the deletion of the note is
    rejected: the three fragments are written, [vault.delete] throws, and
    the run ends without a notice. *)
Lemma no_summary_when_delete_rejected :
  let w := Vault.world Vault.abc [1000; 1000; 1000]%Z 5 true in
  let run := splitNoteByDelimiter Vault.host SpecUtils.utils Vault.dashes
                                  Vault.note w in
  normalizeDelimiter (delimiter Vault.dashes) <> []
  /\ cachedRead Vault.host Vault.note w = (Ok Vault.abc, w)
  /\ length (fragmentsOf SpecUtils.utils Vault.dashes Vault.abc) = 3
  /\ filesCreatedIn (trace_of run) = 3
  /\ outcome_of run = Throw {| message := lit "Operation not permitted." |}
  /\ notices (trace_of run) = []
  /\ ~ (exists msg, In msg (notices (trace_of run)) /\ is_summary msg).
Proof.
  cbv zeta. split; [discriminate|]. repeat split; try reflexivity.
  intros (msg & Hin & _). vm_compute in Hin. exact Hin.
Qed.

(** C10, amended.  In a run that reaches the write loop and in which no
    deletion of the note is rejected, the notices are the notices of the
    failed writes followed by one summary; the summary gives the number of
    files created, with [note] when that number is at most 1 and [notes]
    otherwise; when no file was created it is [Split into 0 note.]. *)
Theorem one_summary_with_files_created {World : Type} (host : Host World)
        (utils : Utils) (settings : NoteSplitterSettings) (file : TFile)
        (w w1 : World) (data : jsstring) :
  normalizeDelimiter (delimiter settings) <> [] ->
  cachedRead host file w = (Ok data, w1) ->
  2 <= length (fragmentsOf utils settings data) ->
  let run := splitNoteByDelimiter host utils settings file w in
  let n := filesCreatedIn (trace_of run) in
  (forall err, ~ In (EvDelete file (Some err)) (trace_of run)) ->
  outcome_of run = Ok tt
  /\ (exists errors,
        notices (trace_of run) = errors ++ [summary n]
        /\ Forall is_error_notice errors
        /\ Forall (fun msg => ~ is_summary msg) errors)
  /\ is_summary (summary n)
  /\ summary n = lit "Split into " ++ of_nat n
                 ++ (if n <=? 1 then lit " note." else lit " notes.")
  /\ (n = 0 -> summary n = lit "Split into 0 note.").
Proof.
  intros Hd Hr Hlen.
  destruct (run_materialized host utils settings file w w1 data Hd Hr Hlen)
    as (r & w' & tr & Hrun & Hmat).
  rewrite Hrun. unfold trace_of, outcome_of. simpl. intros Hno.
  destruct (materialized_notices host utils settings file _ r tr Hmat Hno)
    as (Hr' & errors & Hn & Herr).
  split; [exact Hr'|]. split.
  - exists errors. repeat split; auto.
    eapply Forall_impl; [|exact Herr]. apply error_notice_not_summary.
  - split; [apply summary_is_summary|]. split; [apply summary_text|].
    now intros ->.
Qed.

Lemma one_summary_with_files_created_witness :
  let w := Vault.world Vault.abc [1000; 1000; 1000]%Z 0 false in
  let run := splitNoteByDelimiter Vault.host SpecUtils.utils Vault.dashes
                                  Vault.note w in
  normalizeDelimiter (delimiter Vault.dashes) <> []
  /\ cachedRead Vault.host Vault.note w = (Ok Vault.abc, w)
  /\ 2 <= length (fragmentsOf SpecUtils.utils Vault.dashes Vault.abc)
  /\ (forall err, ~ In (EvDelete Vault.note (Some err)) (trace_of run))
  /\ filesCreatedIn (trace_of run) = 0
  /\ outcome_of run = Ok tt
  /\ summary (filesCreatedIn (trace_of run)) = lit "Split into 0 note.".
Proof.
  cbv zeta.
  assert (Hd : normalizeDelimiter (delimiter Vault.dashes) <> []) by discriminate.
  assert (Hlen : 2 <= length (fragmentsOf SpecUtils.utils Vault.dashes Vault.abc)).
  { vm_compute. lia. }
  assert (Hno : forall err,
             ~ In (EvDelete Vault.note (Some err))
                  (trace_of (splitNoteByDelimiter Vault.host SpecUtils.utils
                               Vault.dashes Vault.note
                               (Vault.world Vault.abc [1000; 1000; 1000]%Z 0 false)))).
  { intros err H. vm_compute in H.
    repeat (destruct H as [H | H]; [discriminate H|]). exact H. }
  split; [exact Hd|]. split; [reflexivity|]. split; [exact Hlen|].
  split; [exact Hno|]. split; [reflexivity|].
  pose proof (one_summary_with_files_created Vault.host SpecUtils.utils
                Vault.dashes Vault.note
                (Vault.world Vault.abc [1000; 1000; 1000]%Z 0 false)
                (Vault.world Vault.abc [1000; 1000; 1000]%Z 0 false)
                Vault.abc Hd eq_refl Hlen Hno) as (Hok & _ & _ & _ & H0).
  split; [exact Hok|]. apply H0. reflexivity.
Defined.

(** The three sections are written, the note is deleted and the summary
    is in the plural. *)
Example split_abc :
  let run := splitNoteByDelimiter Vault.host SpecUtils.utils Vault.dashes
               Vault.note (Vault.world Vault.abc [1000; 1000; 1000]%Z 5 false) in
  outcome_of run = Ok tt
  /\ firstAttempts (trace_of run)
     = [lit "note-splitter/split-note-1000.md";
        lit "note-splitter/split-note-1001.md";
        lit "note-splitter/split-note-1002.md"]
  /\ deletions (trace_of run) = [Vault.note]
  /\ notices (trace_of run) = [lit "Split into 3 notes."].
Proof. cbv zeta. repeat split; reflexivity. Qed.

(** ** File names *)

Lemma lit_inj (a b : string) : lit a = lit b -> a = b.
Proof.
  unfold lit. intros H.
  rewrite <- (string_of_list_ascii_of_string a),
          <- (string_of_list_ascii_of_string b).
  f_equal.
  revert H. generalize (list_ascii_of_string a), (list_ascii_of_string b).
  induction l as [|x l IH]; intros [|y l'] H; try discriminate; [reflexivity|].
  simpl in H. injection H as Hxy Hl.
  rewrite <- (ascii_N_embedding x), <- (ascii_N_embedding y), Hxy.
  f_equal. now apply IH.
Qed.

Lemma of_Z_inj (a b : Z) : of_Z a = of_Z b -> a = b.
Proof.
  unfold of_Z. intros H. apply lit_inj in H.
  apply DecimalZ.to_int_inj.
  pose proof (NilEmpty.isi (Z.to_int a)) as Ha.
  pose proof (NilEmpty.isi (Z.to_int b)) as Hb.
  rewrite H in Ha. congruence.
Qed.

Lemma synthesizedNames_In (x : jsstring) (ts : list Z) :
  forall i, In x (synthesizedNames i ts) ->
  exists t j, In t ts /\ i <= j /\ x = lit "split-note-" ++ of_Z (t + Z.of_nat j).
Proof.
  induction ts as [|t ts IH]; intros i; cbn [synthesizedNames In];
    [contradiction|].
  intros [<- | Hin].
  - exists t, i. auto.
  - destruct (IH (S i) Hin) as (t' & j & Ht & Hj & Hx).
    exists t', j. repeat split; auto. lia.
Qed.

Lemma synthesizedNames_NoDup (ts : list Z) :
  forall i, nondecreasing ts -> NoDup (synthesizedNames i ts).
Proof.
  induction ts as [|t ts IH]; intros i; cbn [synthesizedNames nondecreasing];
    [constructor|].
  intros [Hle Hnd]. constructor; [|now apply IH].
  intros Hin. apply synthesizedNames_In in Hin as (t' & j & Ht & Hj & Hx).
  apply app_inv_head in Hx. apply of_Z_inj in Hx.
  specialize (Hle t' Ht). lia.
Qed.

(** C7 as it stands fails when the clock steps back between two
    fragments: the code reads [Date.now()] for every fragment, and the
    readings 1000 and 999 give the first two fragments the same name. *)
Lemma synthesized_names_collide_when_clock_steps_back :
  let w := Vault.world Vault.abc [1000; 999; 1000]%Z 5 false in
  let tr := trace_of (splitNoteByDelimiter Vault.host SpecUtils.utils
                        Vault.dashes Vault.note w) in
  useContentAsTitle Vault.dashes = false
  /\ clockReadings tr = [1000; 999; 1000]%Z
  /\ synthesizedNames 0 (clockReadings tr)
     = [lit "split-note-1000"; lit "split-note-1000"; lit "split-note-1002"]
  /\ firstAttempts tr
     = [lit "note-splitter/split-note-1000.md";
        lit "note-splitter/split-note-1000.md";
        lit "note-splitter/split-note-1002.md"]
  /\ ~ NoDup (synthesizedNames 0 (clockReadings tr)).
Proof.
  cbv zeta. repeat split; try reflexivity.
  intros H. vm_compute in H. inversion H as [|x l Hnotin _]; subst.
  apply Hnotin. now left.
Qed.

(** C7, amended.  In a run that reaches the write loop without
    [useContentAsTitle], the clock is read once for every fragment, the
    first attempt of fragment [i] goes to the name
    [split-note-] followed by the sum of its reading and [i], and when the
    readings of the run do not decrease these names are pairwise
    distinct. *)
Theorem synthesized_names_distinct {World : Type} (host : Host World)
        (utils : Utils) (settings : NoteSplitterSettings) (file : TFile)
        (w w1 : World) (data : jsstring) :
  useContentAsTitle settings = false ->
  normalizeDelimiter (delimiter settings) <> [] ->
  cachedRead host file w = (Ok data, w1) ->
  2 <= length (fragmentsOf utils settings data) ->
  let tr := trace_of (splitNoteByDelimiter host utils settings file w) in
  nondecreasing (clockReadings tr) ->
  length (clockReadings tr) = length (fragmentsOf utils settings data)
  /\ firstAttempts tr
     = map (filePathOf host (folderPathOf settings file))
           (synthesizedNames 0 (clockReadings tr))
  /\ NoDup (synthesizedNames 0 (clockReadings tr)).
Proof.
  intros Hmode Hd Hr Hlen.
  destruct (run_materialized host utils settings file w w1 data Hd Hr Hlen)
    as (r & w' & tr & Hrun & Hmat).
  rewrite Hrun. unfold trace_of. simpl. intros Hnd.
  destruct (materialized_clock host utils settings file _ r tr Hmat)
    as (k & tr' & Hps & Hclock & Hfirst).
  destruct (all_processed_synthesized host utils settings _ 0 _ k tr' Hmode Hps)
    as (Hl & Hf).
  rewrite Hclock in *. rewrite Hfirst.
  repeat split; auto. now apply synthesizedNames_NoDup.
Qed.

Lemma synthesized_names_distinct_witness :
  let w := Vault.world Vault.abc [1000; 1000; 1001]%Z 5 false in
  let tr := trace_of (splitNoteByDelimiter Vault.host SpecUtils.utils
                        Vault.dashes Vault.note w) in
  useContentAsTitle Vault.dashes = false
  /\ normalizeDelimiter (delimiter Vault.dashes) <> []
  /\ cachedRead Vault.host Vault.note w = (Ok Vault.abc, w)
  /\ 2 <= length (fragmentsOf SpecUtils.utils Vault.dashes Vault.abc)
  /\ nondecreasing (clockReadings tr)
  /\ NoDup (synthesizedNames 0 (clockReadings tr)).
Proof.
  cbv zeta.
  assert (Hd : normalizeDelimiter (delimiter Vault.dashes) <> []) by discriminate.
  assert (Hlen : 2 <= length (fragmentsOf SpecUtils.utils Vault.dashes Vault.abc)).
  { vm_compute. lia. }
  assert (Hnd : nondecreasing
                  (clockReadings
                     (trace_of (splitNoteByDelimiter Vault.host SpecUtils.utils
                                  Vault.dashes Vault.note
                                  (Vault.world Vault.abc [1000; 1000; 1001]%Z 5 false))))).
  { vm_compute. repeat split; intros t' H;
      repeat (destruct H as [<- | H]; [discriminate|]); contradiction. }
  split; [reflexivity|]. split; [exact Hd|]. split; [reflexivity|].
  split; [exact Hlen|]. split; [exact Hnd|].
  apply (synthesized_names_distinct Vault.host SpecUtils.utils Vault.dashes
           Vault.note (Vault.world Vault.abc [1000; 1000; 1001]%Z 5 false)
           (Vault.world Vault.abc [1000; 1000; 1001]%Z 5 false) Vault.abc
           eq_refl Hd eq_refl Hlen Hnd).
Defined.

(** C4 as it stands fails: with [useContentAsTitle], a fragment
    whose first line is [???] gets the empty file name, and its first
    attempt goes to [note-splitter/.md]. *)
Lemma empty_title_is_not_replaced :
  let w := Vault.world Vault.marks [1000; 1000]%Z 5 false in
  let tr := trace_of (splitNoteByDelimiter Vault.host SpecUtils.utils
                        Vault.titled Vault.note w) in
  useContentAsTitle Vault.titled = true
  /\ fragmentsOf SpecUtils.utils Vault.titled Vault.marks = [lit "???"; lit "B"]
  /\ SpecUtils.trimForFileName
       (SpecUtils.escapeInvalidFileNameChars (firstLine (lit "???")))
       (lit ".md") = []
  /\ fileNameOf Vault.host SpecUtils.utils Vault.titled 0 (lit "???") w
     = (Ok [], w, [])
  /\ firstAttempts tr = [lit "note-splitter/.md"; lit "note-splitter/B.md"]
  /\ (forall seed : Z, [] <> lit "split-note-" ++ of_Z seed).
Proof.
  cbv zeta. repeat split; try reflexivity. intros seed H. discriminate H.
Qed.

(** C4, amended.  With [useContentAsTitle] the file name of a fragment is
    what the helpers make of its first line, whatever that is: the clock
    is not read, the index plays no part, and an empty name is used as it
    is.  The first attempts of a run go to these names. *)
Theorem title_mode_uses_sanitized_first_line {World : Type}
        (host : Host World) (utils : Utils) (settings : NoteSplitterSettings)
        (file : TFile) :
  useContentAsTitle settings = true ->
  (forall (i : nat) (originalContent : jsstring) (w : World),
      fileNameOf host utils settings i originalContent w
      = (Ok (trimForFileName utils
               (escapeInvalidFileNameChars utils (firstLine originalContent))
               (lit ".md")),
         w, []))
  /\ (forall (w w1 : World) (data : jsstring),
         normalizeDelimiter (delimiter settings) <> [] ->
         cachedRead host file w = (Ok data, w1) ->
         2 <= length (fragmentsOf utils settings data) ->
         firstAttempts (trace_of (splitNoteByDelimiter host utils settings file w))
         = map (fun c =>
                  filePathOf host (folderPathOf settings file)
                    (trimForFileName utils
                       (escapeInvalidFileNameChars utils (firstLine c))
                       (lit ".md")))
               (fragmentsOf utils settings data)).
Proof.
  intros Hmode. split.
  - intros i c w. unfold fileNameOf. rewrite Hmode. reflexivity.
  - intros w w1 data Hd Hr Hlen.
    destruct (run_materialized host utils settings file w w1 data Hd Hr Hlen)
      as (r & w' & tr & Hrun & Hmat).
    rewrite Hrun. unfold trace_of. simpl.
    destruct (materialized_clock host utils settings file _ r tr Hmat)
      as (k & tr' & Hps & _ & Hfirst).
    rewrite Hfirst.
    now destruct (all_processed_titled host utils settings _ 0 _ k tr' Hmode Hps).
Qed.

Lemma title_mode_uses_sanitized_first_line_witness :
  useContentAsTitle Vault.titled = true
  /\ fileNameOf Vault.host SpecUtils.utils Vault.titled 1 (lit "B")
                (Vault.world Vault.marks [] 5 false)
     = (Ok (lit "B"), Vault.world Vault.marks [] 5 false, []).
Proof.
  split; [reflexivity|].
  apply (title_mode_uses_sanitized_first_line Vault.host SpecUtils.utils
           Vault.titled Vault.note eq_refl).
Defined.

(** * Further properties of the plugin *)

(** ** More on the delimiter *)

Lemma normalizeDelimiter_head (c h : code_unit) (rest t : jsstring) :
  normalizeDelimiter (c :: rest) = h :: t -> h = newline \/ h = c.
Proof.
  destruct rest as [|c2 rest]; cbn [normalizeDelimiter].
  - intros [= <- _]. now right.
  - destruct (N.eqb c backslash && N.eqb c2 letter_n)%bool.
    + intros [= <- _]. now left.
    + intros [= <- _]. now right.
Qed.

Lemma normalizeDelimiter_no_escape (n : nat) :
  forall s, length s <= n ->
  ~ occurs [backslash; letter_n] (normalizeDelimiter s).
Proof.
  induction n as [|n IH]; intros s Hlen.
  - destruct s; [|simpl in Hlen; lia].
    intros H. apply occurs_length in H. simpl in H. lia.
  - destruct s as [|c [|c2 rest]].
    + intros H. apply occurs_length in H. simpl in H. lia.
    + intros H. apply occurs_length in H. simpl in H. lia.
    + cbn [normalizeDelimiter].
      destruct (N.eqb c backslash && N.eqb c2 letter_n)%bool eqn:E.
      * intros (a & b & Hab). destruct a as [|x a].
        -- discriminate Hab.
        -- injection Hab as _ Hab. apply (IH rest); [simpl in Hlen; lia|].
           now exists a, b.
      * intros (a & b & Hab). destruct a as [|x a].
        -- simpl in Hab. injection Hab as Hc Hrest.
           apply normalizeDelimiter_head in Hrest as [Hn | Hn].
           ++ discriminate Hn.
           ++ subst c c2. discriminate E.
        -- injection Hab as _ Hab. apply (IH (c2 :: rest)); [simpl in *; lia|].
           now exists a, b.
Qed.

Lemma normalizeDelimiter_fixed (d : jsstring) :
  ~ occurs [backslash; letter_n] d -> normalizeDelimiter d = d.
Proof.
  intros Hno.
  destruct (normalizeDelimiter_pieces (length d) d (le_n _)) as (P & HP & Hj).
  rewrite (is_split_functional _ _ _ _ HP (is_split_end _ _ Hno)) in Hj.
  exact Hj.
Qed.

Lemma normalizeDelimiter_length (n : nat) :
  forall s, length s <= n -> length (normalizeDelimiter s) <= length s.
Proof.
  induction n as [|n IH]; intros s Hlen.
  - destruct s; [simpl; lia | simpl in Hlen; lia].
  - destruct s as [|c [|c2 rest]]; [simpl; lia | simpl; lia |].
    cbn [normalizeDelimiter].
    destruct (N.eqb c backslash && N.eqb c2 letter_n)%bool.
    + specialize (IH rest). simpl in *. lia.
    + specialize (IH (c2 :: rest)). simpl in *. lia.
Qed.

(** X1. The normalized delimiter holds no backslash-n any more, so that
    normalizing it again changes nothing, and it is never longer than the
    raw delimiter. *)
Theorem normalizeDelimiter_idempotent (d : jsstring) :
  ~ occurs [backslash; letter_n] (normalizeDelimiter d)
  /\ normalizeDelimiter (normalizeDelimiter d) = normalizeDelimiter d
  /\ length (normalizeDelimiter d) <= length d.
Proof.
  pose proof (normalizeDelimiter_no_escape (length d) d (le_n _)) as Hno.
  repeat split.
  - exact Hno.
  - now apply normalizeDelimiter_fixed.
  - now apply (normalizeDelimiter_length (length d)).
Qed.

Lemma run_starts_with_read {World : Type} (host : Host World) (utils : Utils)
      (settings : NoteSplitterSettings) (file : TFile) (w : World) :
  normalizeDelimiter (delimiter settings) <> [] ->
  exists rej tr',
    trace_of (splitNoteByDelimiter host utils settings file w)
    = EvCachedRead file rej :: tr'.
Proof.
  intros Hd.
  destruct (cachedRead host file w) as [[data | err] w1] eqn:Hr.
  2:{ rewrite (run_read_rejected host utils settings file w w1 err Hd Hr).
      now exists (Some err), []. }
  destruct (le_lt_dec 2 (length (fragmentsOf utils settings data))) as [Hlen | Hlen].
  2:{ rewrite (run_few_fragments host utils settings file w w1 data Hd Hr Hlen).
      eexists None, _. reflexivity. }
  destruct (run_materialized host utils settings file w w1 data Hd Hr Hlen)
    as (r & w' & tr & Hrun & Hmat).
  rewrite Hrun. unfold trace_of. simpl.
  destruct Hmat; eexists None, _; reflexivity.
Qed.

(** X2. The run is the report of a missing delimiter, and nothing else,
    exactly when the [delimiter] setting is the empty string; with any
    other delimiter the first thing the run does is to read the note. *)
Theorem missing_delimiter_iff_setting_empty {World : Type} (host : Host World)
        (utils : Utils) (settings : NoteSplitterSettings) (file : TFile)
        (w : World) :
  (splitNoteByDelimiter host utils settings file w
   = (Ok tt, w,
      [EvNotice (lit "No delimiter set. Please set a delimiter in the settings.")])
   <-> delimiter settings = [])
  /\ (delimiter settings <> [] ->
      exists rej tr',
        trace_of (splitNoteByDelimiter host utils settings file w)
        = EvCachedRead file rej :: tr').
Proof.
  assert (Hread : delimiter settings <> [] ->
                  exists rej tr',
                    trace_of (splitNoteByDelimiter host utils settings file w)
                    = EvCachedRead file rej :: tr').
  { intros Hne. apply run_starts_with_read.
    intros H. apply Hne. now apply normalizeDelimiter_nil. }
  split; [|exact Hread]. split.
  - intros Hrun.
    destruct (list_eq_dec N.eq_dec (delimiter settings) []) as [He | Hne];
      [exact He|].
    destruct (Hread Hne) as (rej & tr' & Htr).
    rewrite Hrun in Htr. discriminate Htr.
  - intros He. apply run_no_delimiter. now rewrite He.
Qed.

(** ** More on the fragments *)

Lemma occurs_trans (a b c : jsstring) : occurs a b -> occurs b c -> occurs a c.
Proof.
  intros (x & y & ->) (u & v & ->). exists (u ++ x), (y ++ v).
  now rewrite <- !app_assoc.
Qed.

Lemma is_split_parts (d t : jsstring) (segs : list jsstring) :
  is_split d t segs -> Forall (fun s => occurs s t) segs.
Proof.
  induction 1 as [t _ | s rest segs _ _ IH].
  - constructor; [|constructor]. exists [], []. now rewrite app_nil_r.
  - constructor.
    + now exists [], (d ++ rest).
    + eapply Forall_impl; [|exact IH]. intros x Hx.
      apply (occurs_trans _ _ _ Hx). exists (s ++ d), []. 
      now rewrite app_nil_r, <- app_assoc.
Qed.

Lemma is_trim_part (s r : jsstring) : is_trim s r -> occurs r s.
Proof. intros (l & w & Hs & _). now exists l, w. Qed.

Lemma trimStart_fixed (s : jsstring) :
  (forall c r, s = c :: r -> is_ws c = false) -> trimStart s = s.
Proof.
  destruct s as [|c s]; [reflexivity|]. intros H. simpl.
  now rewrite (H c s eq_refl).
Qed.

Lemma trim_fixed (s : jsstring) :
  (forall c r, s = c :: r -> is_ws c = false) ->
  (forall c r, s = r ++ [c] -> is_ws c = false) ->
  trim s = s.
Proof.
  intros Hhd Hlast. unfold trim, trimEnd. rewrite (trimStart_fixed s Hhd).
  rewrite trimStart_fixed; [apply rev_involutive|].
  intros c r Hr. apply (Hlast c (rev r)).
  rewrite <- (rev_involutive s), Hr. reflexivity.
Qed.

Lemma trim_idempotent (s : jsstring) : trim (trim s) = trim s.
Proof.
  destruct (trim_is_trim s) as (l & w & _ & _ & _ & Hhd & Hlast).
  now apply trim_fixed.
Qed.

Lemma trimStart_whitespace (s : jsstring) :
  whitespace_only s -> trimStart s = [].
Proof.
  unfold whitespace_only. induction s as [|c s IH]; [reflexivity|].
  simpl. intros H. apply andb_true_iff in H as [Hc Hs]. rewrite Hc. now apply IH.
Qed.

Lemma trim_whitespace (s : jsstring) : whitespace_only s -> trim s = [].
Proof. intros H. unfold trim. now rewrite (trimStart_whitespace s H). Qed.

Lemma whitespace_part (s t : jsstring) :
  occurs s t -> whitespace_only t -> whitespace_only s.
Proof.
  unfold whitespace_only. intros (a & b & ->).
  rewrite !forallb_app, !andb_true_iff. tauto.
Qed.

Lemma partition_from_segments (T d : jsstring) :
  d <> [] ->
  Forall (fun f => exists s, (occurs s T /\ ~ occurs d s) /\ is_trim s f
                             /\ f = trim f)
         (partition T d).
Proof.
  intros Hd. pose proof (split_is_split d Hd T) as Hsp.
  pose proof (is_split_parts _ _ _ Hsp) as Hparts.
  pose proof (is_split_free d Hd T _ Hsp) as Hfree.
  unfold partition. rewrite Forall_forall in *. intros f Hf.
  apply filter_In in Hf as [Hf _]. apply in_map_iff in Hf as (s & <- & Hin).
  exists s. repeat split; auto.
  - apply trim_is_trim.
  - symmetry. apply trim_idempotent.
Qed.

(** X3. A text in which the non-empty delimiter does not occur gives its
    trimmed self as the only fragment, or no fragment when it is blank. *)
Theorem partition_without_delimiter (T d : jsstring) :
  d <> [] -> ~ occurs d T ->
  partition T d = if eqb (trim T) [] then [] else [trim T].
Proof.
  intros Hd Hno. unfold partition.
  rewrite (is_split_functional _ _ _ _ (split_is_split d Hd T)
                               (is_split_end _ _ Hno)).
  simpl. now destruct (eqb (trim T) []).
Qed.

Lemma partition_without_delimiter_witness :
  lit "---" <> [] /\ ~ occurs (lit "---") Vault.one_part
  /\ partition Vault.one_part (lit "---") = [lit "Only one part"].
Proof.
  assert (Hd : lit "---" <> []) by discriminate.
  assert (Hno : ~ occurs (lit "---") Vault.one_part).
  { apply indexOf_None. reflexivity. }
  split; [exact Hd|]. split; [exact Hno|].
  exact (partition_without_delimiter Vault.one_part (lit "---") Hd Hno).
Defined.

(** X4. Every fragment is a contiguous part of the text, and trimming it
    again changes nothing. *)
Theorem fragments_are_trimmed_parts (T d : jsstring) :
  d <> [] ->
  Forall (fun f => occurs f T /\ trim f = f) (partition T d).
Proof.
  intros Hd. eapply Forall_impl; [|exact (partition_from_segments T d Hd)].
  intros f (s & (Hs & _) & Htrim & Hfix). split; [|now symmetry].
  exact (occurs_trans _ _ _ (is_trim_part _ _ Htrim) Hs).
Qed.

Lemma fragments_are_trimmed_parts_witness :
  lit "---" <> []
  /\ Forall (fun f => occurs f Vault.abc /\ trim f = f)
            (partition Vault.abc (lit "---")).
Proof.
  split; [discriminate|].
  apply (fragments_are_trimmed_parts Vault.abc (lit "---")). discriminate.
Defined.

Lemma partition_whitespace (T d : jsstring) :
  d <> [] -> whitespace_only T -> partition T d = [].
Proof.
  intros Hd Hws. pose proof (is_split_parts _ _ _ (split_is_split d Hd T)) as Hparts.
  unfold partition. induction Hparts as [|s segs Hs _ IH]; [reflexivity|].
  simpl. rewrite (trim_whitespace s (whitespace_part s T Hs Hws)). exact IH.
Qed.

(** X5. A note whose text, once the frontmatter is removed, is made of
    white space only is reported as having no content, whatever the
    delimiter; nothing is created or deleted. *)
Theorem blank_note_has_no_content {World : Type} (host : Host World)
        (utils : Utils) (settings : NoteSplitterSettings) (file : TFile)
        (w w1 : World) (data : jsstring) :
  normalizeDelimiter (delimiter settings) <> [] ->
  cachedRead host file w = (Ok data, w1) ->
  whitespace_only (removeFrontmatterBlock utils data) ->
  splitNoteByDelimiter host utils settings file w
  = (Ok tt, w1, [EvCachedRead file None; EvNotice (lit "No content to split.")]).
Proof.
  intros Hd Hr Hws.
  assert (Hfr : fragmentsOf utils settings data = []).
  { unfold fragmentsOf. now apply partition_whitespace. }
  rewrite (run_few_fragments host utils settings file w w1 data Hd Hr);
    rewrite Hfr; [reflexivity | simpl; lia].
Qed.

Lemma blank_note_has_no_content_witness :
  let blanks := [32; 10; 9; 10; 32]%N in
  normalizeDelimiter (delimiter DEFAULT_SETTINGS) <> []
  /\ cachedRead Vault.host Vault.note (Vault.world blanks [] 5 false)
     = (Ok blanks, Vault.world blanks [] 5 false)
  /\ whitespace_only (removeFrontmatterBlock SpecUtils.utils blanks)
  /\ splitNoteByDelimiter Vault.host SpecUtils.utils DEFAULT_SETTINGS Vault.note
       (Vault.world blanks [] 5 false)
     = (Ok tt, Vault.world blanks [] 5 false,
        [EvCachedRead Vault.note None; EvNotice (lit "No content to split.")]).
Proof.
  cbv zeta. split; [discriminate|]. split; [reflexivity|]. split; [reflexivity|].
  apply (blank_note_has_no_content Vault.host SpecUtils.utils DEFAULT_SETTINGS
           Vault.note (Vault.world [32; 10; 9; 10; 32]%N [] 5 false)
           (Vault.world [32; 10; 9; 10; 32]%N [] 5 false) [32; 10; 9; 10; 32]%N).
  - discriminate.
  - reflexivity.
  - reflexivity.
Defined.

Lemma is_split_length (d t : jsstring) (segs : list jsstring) :
  is_split d t segs ->
  length t = length (concat segs) + (length segs - 1) * length d.
Proof.
  induction 1 as [t _ | s rest segs _ Hsp IH].
  - simpl. rewrite app_nil_r. lia.
  - destruct segs as [|s' segs]; [inversion Hsp|].
    rewrite !length_app, IH. cbn [concat length]. rewrite !length_app. lia.
Qed.

Lemma is_trim_length (s r : jsstring) : is_trim s r -> length r <= length s.
Proof. intros (l & w & -> & _). rewrite !length_app. lia. Qed.

Lemma trimmed_nonempty_length (segs out : list jsstring) :
  trimmed_nonempty segs out ->
  length (concat out) <= length (concat segs) /\ length out <= length segs.
Proof.
  induction 1 as [| s segs out _ _ [IH1 IH2] | s r segs out Ht _ _ [IH1 IH2]];
    simpl; rewrite ?length_app.
  - lia.
  - lia.
  - apply is_trim_length in Ht. lia.
Qed.

(** X6. The fragments, with one delimiter between two neighbours, fit in
    the text: their lengths and the lengths of the delimiters between them
    add up to at most the length of the text. *)
Theorem fragments_fit_in_text (T d : jsstring) :
  d <> [] ->
  length (concat (partition T d)) + (length (partition T d) - 1) * length d
  <= length T.
Proof.
  intros Hd.
  rewrite (is_split_length _ _ _ (split_is_split d Hd T)).
  destruct (trimmed_nonempty_length _ _ (filter_trim_trimmed_nonempty (split T d)))
    as [H1 H2].
  fold (partition T d) in H1, H2.
  assert ((length (partition T d) - 1) * length d
          <= (length (split T d) - 1) * length d).
  { apply Nat.mul_le_mono_r. lia. }
  lia.
Qed.

Lemma fragments_fit_in_text_witness :
  lit "---" <> []
  /\ length (concat (partition Vault.abc (lit "---")))
     + (length (partition Vault.abc (lit "---")) - 1) * length (lit "---")
     <= length Vault.abc.
Proof.
  split; [discriminate|].
  apply (fragments_fit_in_text Vault.abc (lit "---")). discriminate.
Defined.

Lemma split_cut (a d b : jsstring) :
  d <> [] -> indexOf d (a ++ d) = Some (length a) ->
  split (a ++ d ++ b) d = a :: split b d /\ split a d = [a].
Proof.
  intros Hd Hi.
  destruct (indexOf_Some _ _ _ Hi) as (s & rest & _ & _ & Hleft).
  assert (Hcut : is_split d (a ++ d ++ b) (a :: split b d)).
  { apply is_split_cut; [exact Hleft | now apply split_is_split]. }
  split.
  - exact (is_split_functional _ _ _ _ (split_is_split d Hd _) Hcut).
  - pose proof (is_split_free d Hd _ _ Hcut) as Hfree.
    apply Forall_inv in Hfree.
    exact (is_split_functional _ _ _ _ (split_is_split d Hd a)
                               (is_split_end _ _ Hfree)).
Qed.

(** X7. Partitioning distributes over a cut at the delimiter: when the
    first occurrence of [d] in [a ++ d] is the one at the end, the
    fragments of [a ++ d ++ b] are the fragments of [a] followed by the
    fragments of [b].  In particular a text that starts with the delimiter
    has the fragments of what follows it. *)
Theorem partition_cut (a d b : jsstring) :
  d <> [] -> indexOf d (a ++ d) = Some (length a) ->
  partition (a ++ d ++ b) d = partition a d ++ partition b d.
Proof.
  intros Hd Hi. destruct (split_cut a d b Hd Hi) as [Hab Ha].
  unfold partition. rewrite Hab, Ha. simpl.
  now destruct (eqb (trim a) []).
Qed.

Lemma partition_cut_witness :
  let a := [65; 10]%N in
  let b := [10; 66; 10; 45; 45; 45; 10; 67]%N in
  lit "---" <> []
  /\ indexOf (lit "---") (a ++ lit "---") = Some (length a)
  /\ partition (a ++ lit "---" ++ b) (lit "---")
     = partition a (lit "---") ++ partition b (lit "---").
Proof.
  cbv zeta. split; [discriminate|]. split; [reflexivity|].
  apply (partition_cut [65; 10]%N (lit "---")
           [10; 66; 10; 45; 45; 45; 10; 67]%N).
  - discriminate.
  - reflexivity.
Defined.

(** ** More on a run *)

Lemma firstBodies_app (a b : trace) :
  firstBodies (a ++ b) = firstBodies a ++ firstBodies b.
Proof.
  induction a as [|e a IH]; [reflexivity|].
  destruct e as [| | | | |[] | | |]; simpl; now rewrite ?IH.
Qed.

Section ProcessedMore.

Context {World : Type}.
Variable host : Host World.
Variable utils : Utils.
Variable settings : NoteSplitterSettings.
Variable folderPath : jsstring.

Lemma processed_more (i : nat) (c : jsstring) (k : nat) (tr : trace) :
  fragment_processed host utils settings folderPath i c k tr ->
  filter setup tr = []
  /\ firstBodies tr = [bodyOf settings c]
  /\ (forall data, In data (flat_map writes_data tr) -> data = bodyOf settings c)
  /\ length (notices tr) + k = 1.
Proof.
  destruct 1 as [fileName tn Hn | fileName tn err uuid Hn Hex
                | fileName tn err uuid err' Hn Hex | fileName tn err Hn Hex];
    destruct Hn; simpl; repeat split; auto;
    intros data Hin; repeat (destruct Hin as [Hin | Hin]; [now symmetry|]);
    contradiction.
Qed.

Lemma all_processed_more (i : nat) (entries : list jsstring) (k : nat)
      (tr : trace) :
  fragments_processed host utils settings folderPath i entries k tr ->
  filter setup tr = []
  /\ firstBodies tr = map (bodyOf settings) entries
  /\ (forall data, In data (flat_map writes_data tr) ->
                   In data (map (bodyOf settings) entries))
  /\ length (notices tr) + k = length entries.
Proof.
  induction 1 as [i | i c rest k tr n tr' Hp Hps (Hs & Hb & Hd & Hn)].
  - repeat split; auto.
  - destruct (processed_more _ _ _ _ Hp) as (Hs1 & Hb1 & Hd1 & Hn1).
    rewrite filter_app, firstBodies_app, notices_app, length_app, Hs, Hs1, Hb, Hb1.
    repeat split; auto.
    + intros data Hin. rewrite flat_map_app in Hin.
      apply in_app_or in Hin as [Hin | Hin].
      * left. symmetry. now apply Hd1.
      * right. now apply Hd.
    + simpl. lia.
Qed.

End ProcessedMore.

(** X8. When the read of the note is rejected, the run ends with the
    error of the read: no notice is shown, and nothing is created or
    deleted. *)
Theorem rejected_read_ends_run_silently {World : Type} (host : Host World)
        (utils : Utils) (settings : NoteSplitterSettings) (file : TFile)
        (w w1 : World) (err : Error) :
  normalizeDelimiter (delimiter settings) <> [] ->
  cachedRead host file w = (Throw err, w1) ->
  let run := splitNoteByDelimiter host utils settings file w in
  run = (Throw err, w1, [EvCachedRead file (Some err)])
  /\ notices (trace_of run) = []
  /\ filter mutation (trace_of run) = [].
Proof.
  intros Hd Hr. cbv zeta.
  rewrite (run_read_rejected host utils settings file w w1 err Hd Hr).
  repeat split.
Qed.

Lemma rejected_read_ends_run_silently_witness :
  let lost := {| path := lit "inbox/lost.md"; parent := Some (lit "inbox") |} in
  let w := Vault.world Vault.abc [] 5 false in
  let err := {| message := lit "File not found." |} in
  normalizeDelimiter (delimiter Vault.dashes) <> []
  /\ cachedRead Vault.host lost w = (Throw err, w)
  /\ splitNoteByDelimiter Vault.host SpecUtils.utils Vault.dashes lost w
     = (Throw err, w, [EvCachedRead lost (Some err)]).
Proof.
  cbv zeta. split; [discriminate|]. split; [reflexivity|].
  apply (rejected_read_ends_run_silently Vault.host SpecUtils.utils Vault.dashes
           {| path := lit "inbox/lost.md"; parent := Some (lit "inbox") |}
           (Vault.world Vault.abc [] 5 false) (Vault.world Vault.abc [] 5 false)
           {| message := lit "File not found." |}).
  - discriminate.
  - reflexivity.
Defined.

Section Reached.

Context {World : Type}.
Variable host : Host World.
Variable utils : Utils.
Variable settings : NoteSplitterSettings.
Variable file : TFile.

(** The trace of a run that reaches the loop, cut in its parts. *)
Lemma materialized_parts (fragments : list jsstring) (r : result unit)
      (tr : trace) :
  materialized host utils settings file fragments r tr ->
  exists rej k loop tail,
    tr = EvCachedRead file None
         :: EvCreateFolder (folderPathOf settings file) rej :: loop ++ tail
    /\ fragments_processed host utils settings (folderPathOf settings file)
                           0 fragments k loop
    /\ (r = Ok tt /\ tail = [EvNotice (summary k)]
        \/ r = Ok tt /\ tail = [EvDelete file None; EvNotice (summary k)]
        \/ exists err, r = Throw err /\ tail = [EvDelete file (Some err)]).
Proof.
  destruct 1 as [rej k tr Hps Hdel | rej k tr Hps Hdel | rej k tr err Hps Hdel];
    exists rej, k, tr; eexists; (split; [reflexivity|]); (split; [exact Hps|]).
  - now left.
  - right. now left.
  - right. right. now exists err.
Qed.

End Reached.

(** X9. A run that reaches the write loop asks once for the folder,
    right after the read and before any write: the configured folder, or
    the folder of the note when none is configured, or the root.  Whether
    [createFolder] resolves or is rejected, every fragment is attempted
    afterwards. *)
Theorem folder_is_requested_once {World : Type} (host : Host World)
        (utils : Utils) (settings : NoteSplitterSettings) (file : TFile)
        (w w1 : World) (data : jsstring) :
  normalizeDelimiter (delimiter settings) <> [] ->
  cachedRead host file w = (Ok data, w1) ->
  2 <= length (fragmentsOf utils settings data) ->
  (exists rej rest,
      trace_of (splitNoteByDelimiter host utils settings file w)
      = EvCachedRead file None
        :: EvCreateFolder (folderPathOf settings file) rej :: rest
      /\ rejection (fst (createFolder host (folderPathOf settings file) w1)) = rej
      /\ filter setup rest = []
      /\ length (firstAttempts rest) = length (fragmentsOf utils settings data))
  /\ (saveFolderPath settings <> [] ->
      folderPathOf settings file = saveFolderPath settings)
  /\ (saveFolderPath settings = [] ->
      folderPathOf settings file
      = match parent file with Some p => p | None => [] end).
Proof.
  intros Hd Hr Hlen. split; [|split].
  - unfold splitNoteByDelimiter. rewrite (eqb_false _ Hd).
    unfold bind at 1, vault_cachedRead. rewrite Hr.
    fold (fragmentsOf utils settings data).
    destruct (eqb (removeFrontmatterBlock utils data) []) eqn:E.
    { apply eqb_nil in E. unfold fragmentsOf in Hlen.
      rewrite E, (partition_nil _ Hd) in Hlen. simpl in Hlen. lia. }
    destruct (length (fragmentsOf utils settings data) =? 0) eqn:E0;
      [apply Nat.eqb_eq in E0; lia|].
    destruct (length (fragmentsOf utils settings data) =? 1) eqn:E1;
      [apply Nat.eqb_eq in E1; lia|].
    unfold bind at 1, try_catch, vault_createFolder.
    destruct (createFolder host (folderPathOf settings file) w1)
      as [[[]|e] w2]; simpl fst; simpl rejection.
    + unfold bind at 1.
      destruct (writeLoop_processed host utils settings
                  (folderPathOf settings file)
                  (fragmentsOf utils settings data) 0 0 w2)
        as (k & w3 & tr & Hl & Hps).
      rewrite Hl.
      destruct (all_processed_facts _ _ _ _ _ _ _ _ Hps) as (_ & _ & Hf & _).
      destruct (all_processed_more _ _ _ _ _ _ _ _ Hps) as (Hs & _).
      unfold bind at 1.
      destruct ((k + 0 =? length (fragmentsOf utils settings data))
                && deleteOriginalNote settings).
      * unfold vault_delete. destruct (delete host file w3) as [[[]|err] w4];
          unfold trace_of; simpl; eexists _, _; (split; [reflexivity|]);
          rewrite filter_app, firstAttempts_app, length_app, Hs, Hf; simpl;
          repeat split; lia.
      * unfold trace_of; simpl; eexists _, _; (split; [reflexivity|]);
          rewrite filter_app, firstAttempts_app, length_app, Hs, Hf; simpl;
          repeat split; lia.
    + unfold ret at 1. unfold bind at 1.
      destruct (writeLoop_processed host utils settings
                  (folderPathOf settings file)
                  (fragmentsOf utils settings data) 0 0 w2)
        as (k & w3 & tr & Hl & Hps).
      rewrite Hl.
      destruct (all_processed_facts _ _ _ _ _ _ _ _ Hps) as (_ & _ & Hf & _).
      destruct (all_processed_more _ _ _ _ _ _ _ _ Hps) as (Hs & _).
      unfold bind at 1.
      destruct ((k + 0 =? length (fragmentsOf utils settings data))
                && deleteOriginalNote settings).
      * unfold vault_delete. destruct (delete host file w3) as [[[]|err] w4];
          unfold trace_of; simpl; eexists _, _; (split; [reflexivity|]);
          rewrite filter_app, firstAttempts_app, length_app, Hs, Hf; simpl;
          repeat split; lia.
      * unfold trace_of; simpl; eexists _, _; (split; [reflexivity|]);
          rewrite filter_app, firstAttempts_app, length_app, Hs, Hf; simpl;
          repeat split; lia.
  - intros Hs. unfold folderPathOf. now rewrite (eqb_false _ Hs).
  - intros Hs. unfold folderPathOf. now rewrite Hs.
Qed.

Lemma folder_is_requested_once_witness :
  let w := Vault.world Vault.abc [1000; 1000; 1000]%Z 5 false in
  normalizeDelimiter (delimiter Vault.dashes) <> []
  /\ cachedRead Vault.host Vault.note w = (Ok Vault.abc, w)
  /\ 2 <= length (fragmentsOf SpecUtils.utils Vault.dashes Vault.abc)
  /\ exists rej rest,
       trace_of (splitNoteByDelimiter Vault.host SpecUtils.utils Vault.dashes
                   Vault.note w)
       = EvCachedRead Vault.note None
         :: EvCreateFolder (folderPathOf Vault.dashes Vault.note) rej :: rest
       /\ rejection (fst (createFolder Vault.host
                            (folderPathOf Vault.dashes Vault.note) w)) = rej
       /\ filter setup rest = []
       /\ length (firstAttempts rest)
          = length (fragmentsOf SpecUtils.utils Vault.dashes Vault.abc).
Proof.
  cbv zeta.
  assert (Hd : normalizeDelimiter (delimiter Vault.dashes) <> []) by discriminate.
  assert (Hlen : 2 <= length (fragmentsOf SpecUtils.utils Vault.dashes Vault.abc)).
  { vm_compute. lia. }
  split; [exact Hd|]. split; [reflexivity|]. split; [exact Hlen|].
  exact (proj1 (folder_is_requested_once Vault.host SpecUtils.utils Vault.dashes
                  Vault.note (Vault.world Vault.abc [1000; 1000; 1000]%Z 5 false)
                  (Vault.world Vault.abc [1000; 1000; 1000]%Z 5 false)
                  Vault.abc Hd eq_refl Hlen)).
Defined.

(** X10. In a run that reaches the write loop the first attempts carry,
    in the order of the note, each fragment followed by
    [appendToSplitContent], and no [vault.create] of the run, retry
    included, carries anything else. *)
Theorem fragments_are_written_with_suffix {World : Type} (host : Host World)
        (utils : Utils) (settings : NoteSplitterSettings) (file : TFile)
        (w w1 : World) (data : jsstring) :
  normalizeDelimiter (delimiter settings) <> [] ->
  cachedRead host file w = (Ok data, w1) ->
  2 <= length (fragmentsOf utils settings data) ->
  let tr := trace_of (splitNoteByDelimiter host utils settings file w) in
  let bodies := map (fun c => c ++ appendToSplitContent settings)
                    (fragmentsOf utils settings data) in
  firstBodies tr = bodies
  /\ (forall a filePath body rej,
         In (EvCreate a filePath body rej) tr -> In body bodies).
Proof.
  intros Hd Hr Hlen.
  destruct (run_materialized host utils settings file w w1 data Hd Hr Hlen)
    as (r & w' & tr & Hrun & Hmat).
  rewrite Hrun. unfold trace_of. simpl snd. cbv zeta.
  destruct (materialized_parts host utils settings file _ r tr Hmat)
    as (rej & k & loop & tail & -> & Hps & Htail).
  destruct (all_processed_more _ _ _ _ _ _ _ _ Hps) as (_ & Hb & Hin & _).
  fold (bodyOf settings) in *. unfold bodyOf in Hb, Hin. split.
  - cbn [firstBodies]. rewrite firstBodies_app, Hb.
    destruct Htail as [[_ ->] | [[_ ->] | (err & _ & ->)]]; simpl;
      now rewrite app_nil_r.
  - intros a p body rj H.
    destruct H as [H | [H | H]]; [discriminate H | discriminate H |].
    apply in_app_or in H as [H | H].
    + apply Hin. apply in_flat_map. eexists. split; [exact H|]. now left.
    + destruct Htail as [[_ ->] | [[_ ->] | (err & _ & ->)]];
        repeat (destruct H as [H | H]; [discriminate H|]); contradiction.
Qed.

Lemma fragments_are_written_with_suffix_witness :
  let w := Vault.world Vault.abc [1000; 1000; 1000]%Z 5 false in
  normalizeDelimiter (delimiter Vault.dashes) <> []
  /\ cachedRead Vault.host Vault.note w = (Ok Vault.abc, w)
  /\ 2 <= length (fragmentsOf SpecUtils.utils Vault.dashes Vault.abc)
  /\ firstBodies (trace_of (splitNoteByDelimiter Vault.host SpecUtils.utils
                              Vault.dashes Vault.note w))
     = map (fun c => c ++ appendToSplitContent Vault.dashes)
           (fragmentsOf SpecUtils.utils Vault.dashes Vault.abc).
Proof.
  cbv zeta.
  assert (Hd : normalizeDelimiter (delimiter Vault.dashes) <> []) by discriminate.
  assert (Hlen : 2 <= length (fragmentsOf SpecUtils.utils Vault.dashes Vault.abc)).
  { vm_compute. lia. }
  split; [exact Hd|]. split; [reflexivity|]. split; [exact Hlen|].
  exact (proj1 (fragments_are_written_with_suffix Vault.host SpecUtils.utils
                  Vault.dashes Vault.note
                  (Vault.world Vault.abc [1000; 1000; 1000]%Z 5 false)
                  (Vault.world Vault.abc [1000; 1000; 1000]%Z 5 false)
                  Vault.abc Hd eq_refl Hlen)).
Defined.

(** X11. In a run that reaches the write loop every fragment that was not
    written is reported by exactly one notice: the notices are as many as
    the fragments not written, plus the summary when the run returns. *)
Theorem each_failure_is_reported_once {World : Type} (host : Host World)
        (utils : Utils) (settings : NoteSplitterSettings) (file : TFile)
        (w w1 : World) (data : jsstring) :
  normalizeDelimiter (delimiter settings) <> [] ->
  cachedRead host file w = (Ok data, w1) ->
  2 <= length (fragmentsOf utils settings data) ->
  let run := splitNoteByDelimiter host utils settings file w in
  length (notices (trace_of run)) + filesCreatedIn (trace_of run)
  = length (fragmentsOf utils settings data)
    + match outcome_of run with Ok _ => 1 | Throw _ => 0 end.
Proof.
  intros Hd Hr Hlen.
  destruct (run_materialized host utils settings file w w1 data Hd Hr Hlen)
    as (r & w' & tr & Hrun & Hmat).
  rewrite Hrun. unfold trace_of, outcome_of. simpl fst. simpl snd. cbv zeta.
  destruct (materialized_parts host utils settings file _ r tr Hmat)
    as (rej & k & loop & tail & -> & Hps & Htail).
  destruct (all_processed_more _ _ _ _ _ _ _ _ Hps) as (_ & _ & _ & Hn).
  destruct (all_processed_facts _ _ _ _ _ _ _ _ Hps) as (Hc & _).
  change (EvCachedRead file None
          :: EvCreateFolder (folderPathOf settings file) rej :: loop ++ tail)
    with ([EvCachedRead file None;
           EvCreateFolder (folderPathOf settings file) rej] ++ loop ++ tail).
  rewrite !notices_app, !filesCreatedIn_app, !length_app, Hc.
  destruct Htail as [[-> ->] | [[-> ->] | (err & -> & ->)]];
    unfold filesCreatedIn; simpl; lia.
Qed.

Lemma each_failure_is_reported_once_witness :
  let w := Vault.world Vault.abc [1000; 1000; 1000]%Z 1 false in
  let run := splitNoteByDelimiter Vault.host SpecUtils.utils Vault.dashes
                                  Vault.note w in
  normalizeDelimiter (delimiter Vault.dashes) <> []
  /\ cachedRead Vault.host Vault.note w = (Ok Vault.abc, w)
  /\ 2 <= length (fragmentsOf SpecUtils.utils Vault.dashes Vault.abc)
  /\ filesCreatedIn (trace_of run) = 1
  /\ length (notices (trace_of run)) + filesCreatedIn (trace_of run)
     = length (fragmentsOf SpecUtils.utils Vault.dashes Vault.abc)
       + match outcome_of run with Ok _ => 1 | Throw _ => 0 end.
Proof.
  cbv zeta.
  assert (Hd : normalizeDelimiter (delimiter Vault.dashes) <> []) by discriminate.
  assert (Hlen : 2 <= length (fragmentsOf SpecUtils.utils Vault.dashes Vault.abc)).
  { vm_compute. lia. }
  split; [exact Hd|]. split; [reflexivity|]. split; [exact Hlen|].
  split; [reflexivity|].
  exact (each_failure_is_reported_once Vault.host SpecUtils.utils Vault.dashes
           Vault.note (Vault.world Vault.abc [1000; 1000; 1000]%Z 1 false)
           (Vault.world Vault.abc [1000; 1000; 1000]%Z 1 false)
           Vault.abc Hd eq_refl Hlen).
Defined.

Section EveryRun.

Context {World : Type}.
Variable host : Host World.
Variable utils : Utils.
Variable settings : NoteSplitterSettings.
Variable file : TFile.

(** Every run is of one of four kinds. *)
Lemma run_kinds (w : World) :
  let run := splitNoteByDelimiter host utils settings file w in
  (exists msg, run = (Ok tt, w, [EvNotice msg]))
  \/ (exists err w1, run = (Throw err, w1, [EvCachedRead file (Some err)]))
  \/ (exists msg w1, run = (Ok tt, w1, [EvCachedRead file None; EvNotice msg]))
  \/ (exists data w1 r w' tr,
         cachedRead host file w = (Ok data, w1)
         /\ normalizeDelimiter (delimiter settings) <> []
         /\ 2 <= length (fragmentsOf utils settings data)
         /\ run = (r, w', tr)
         /\ materialized host utils settings file
                         (fragmentsOf utils settings data) r tr).
Proof.
  cbv zeta.
  destruct (list_eq_dec N.eq_dec (normalizeDelimiter (delimiter settings)) [])
    as [Hd | Hd].
  { left. rewrite (run_no_delimiter host utils settings file w Hd). eauto. }
  destruct (cachedRead host file w) as [[data | err] w1] eqn:Hr.
  2:{ right. left.
      rewrite (run_read_rejected host utils settings file w w1 err Hd Hr). eauto. }
  destruct (le_lt_dec 2 (length (fragmentsOf utils settings data))) as [Hlen | Hlen].
  2:{ right. right. left.
      rewrite (run_few_fragments host utils settings file w w1 data Hd Hr Hlen).
      eauto. }
  right. right. right.
  destruct (run_materialized host utils settings file w w1 data Hd Hr Hlen)
    as (r & w' & tr & Hrun & Hmat).
  exists data, w1, r, w', tr. auto.
Qed.

End EveryRun.

(** X12. When a run calls [vault.delete], it does so after every write of
    the run: all the attempts and all the files created come before the
    call, and after it comes the summary, or nothing when the deletion is
    rejected. *)
Theorem deletion_comes_after_the_writes {World : Type} (host : Host World)
        (utils : Utils) (settings : NoteSplitterSettings) (file : TFile)
        (w : World) :
  let tr := trace_of (splitNoteByDelimiter host utils settings file w) in
  deletions tr <> [] ->
  exists a rej b,
    tr = a ++ EvDelete file rej :: b
    /\ deletions a = []
    /\ firstAttempts a = firstAttempts tr
    /\ filesCreatedIn a = filesCreatedIn tr
    /\ filter mutation b = []
    /\ (rej = None /\ (exists msg, b = [EvNotice msg]) \/ rej <> None /\ b = []).
Proof.
  cbv zeta.
  destruct (run_kinds host utils settings file w)
    as [(msg & ->) | [(err & w1 & ->) | [(msg & w1 & ->) |
        (data & w1 & r & w' & tr & _ & _ & _ & -> & Hmat)]]];
    unfold trace_of; simpl snd; try (intros H; now contradiction H).
  destruct (materialized_parts host utils settings file _ r tr Hmat)
    as (rej & k & loop & tail & -> & Hps & Htail).
  destruct (all_processed_facts _ _ _ _ _ _ _ _ Hps) as (_ & _ & _ & Hd & _).
  change (EvCachedRead file None
          :: EvCreateFolder (folderPathOf settings file) rej :: loop ++ tail)
    with ([EvCachedRead file None;
           EvCreateFolder (folderPathOf settings file) rej] ++ loop ++ tail).
  destruct Htail as [[_ ->] | [[_ ->] | (err & _ & ->)]].
  - rewrite !deletions_app, Hd. simpl. intros H. now contradiction H.
  - intros _.
    exists ([EvCachedRead file None;
             EvCreateFolder (folderPathOf settings file) rej] ++ loop),
      None, [EvNotice (summary k)].
    rewrite <- !app_assoc, !deletions_app, !firstAttempts_app,
      !filesCreatedIn_app, Hd.
    unfold filesCreatedIn. simpl. rewrite !app_nil_r, !Nat.add_0_r.
    repeat split; auto. left. split; [reflexivity | eauto].
  - intros _.
    exists ([EvCachedRead file None;
             EvCreateFolder (folderPathOf settings file) rej] ++ loop),
      (Some err), [].
    rewrite <- !app_assoc, !deletions_app, !firstAttempts_app,
      !filesCreatedIn_app, Hd.
    unfold filesCreatedIn. simpl. rewrite !app_nil_r, !Nat.add_0_r.
    repeat split; auto. right. split; [discriminate | reflexivity].
Qed.

Lemma deletion_comes_after_the_writes_witness :
  let tr := trace_of (splitNoteByDelimiter Vault.host SpecUtils.utils
                        Vault.dashes Vault.note
                        (Vault.world Vault.abc [1000; 1000; 1000]%Z 5 false)) in
  deletions tr <> []
  /\ exists a rej b,
       tr = a ++ EvDelete Vault.note rej :: b
       /\ deletions a = []
       /\ firstAttempts a = firstAttempts tr
       /\ filesCreatedIn a = filesCreatedIn tr
       /\ filter mutation b = []
       /\ (rej = None /\ (exists msg, b = [EvNotice msg]) \/ rej <> None /\ b = []).
Proof.
  cbv zeta.
  assert (H : deletions
                (trace_of (splitNoteByDelimiter Vault.host SpecUtils.utils
                             Vault.dashes Vault.note
                             (Vault.world Vault.abc [1000; 1000; 1000]%Z 5 false)))
              <> []).
  { vm_compute. discriminate. }
  split; [exact H|].
  exact (deletion_comes_after_the_writes Vault.host SpecUtils.utils Vault.dashes
           Vault.note (Vault.world Vault.abc [1000; 1000; 1000]%Z 5 false) H).
Defined.

(** X13. A run that returns ends with a notice.  A run that fails fails
    with the error of the read of the note or of its deletion, and that
    rejected call is the last thing it did. *)
Theorem run_ends_with_notice_or_rejection {World : Type} (host : Host World)
        (utils : Utils) (settings : NoteSplitterSettings) (file : TFile)
        (w : World) :
  let run := splitNoteByDelimiter host utils settings file w in
  match outcome_of run with
  | Ok _ => exists pre msg, trace_of run = pre ++ [EvNotice msg]
  | Throw err =>
      exists pre,
        trace_of run = pre ++ [EvCachedRead file (Some err)]
        \/ trace_of run = pre ++ [EvDelete file (Some err)]
  end.
Proof.
  cbv zeta.
  destruct (run_kinds host utils settings file w)
    as [(msg & ->) | [(err & w1 & ->) | [(msg & w1 & ->) |
        (data & w1 & r & w' & tr & _ & _ & _ & -> & Hmat)]]];
    unfold trace_of, outcome_of; simpl fst; simpl snd.
  - now exists [], msg.
  - exists []. now left.
  - now exists [EvCachedRead file None], msg.
  - destruct (materialized_parts host utils settings file _ r tr Hmat)
      as (rej & k & loop & tail & -> & _ & Htail).
    destruct Htail as [[-> ->] | [[-> ->] | (err & -> & ->)]].
    + exists (EvCachedRead file None
              :: EvCreateFolder (folderPathOf settings file) rej :: loop),
        (summary k). reflexivity.
    + exists (EvCachedRead file None
              :: EvCreateFolder (folderPathOf settings file) rej
              :: loop ++ [EvDelete file None]), (summary k).
      simpl. now rewrite <- app_assoc.
    + exists (EvCachedRead file None
              :: EvCreateFolder (folderPathOf settings file) rej :: loop).
      right. reflexivity.
Qed.

(** ** The default settings *)

(** X14. With the settings a new installation starts from, the delimiter
    is the newline, so that the fragments are the lines of the note that
    are not blank, trimmed; no run calls [vault.delete]; and the first
    attempts of a run go to [note-splitter/split-note-<reading + index>.md]. *)
Theorem default_settings_split_lines {World : Type} (host : Host World)
        (utils : Utils) (file : TFile) (w : World) :
  let tr := trace_of (splitNoteByDelimiter host utils DEFAULT_SETTINGS file w) in
  normalizeDelimiter (delimiter DEFAULT_SETTINGS) = [newline]
  /\ (forall data,
         Forall (fun f => f <> [] /\ ~ In newline f /\ trim f = f)
                (fragmentsOf utils DEFAULT_SETTINGS data))
  /\ deletions tr = []
  /\ firstAttempts tr
     = map (filePathOf host (lit "note-splitter"))
           (synthesizedNames 0 (clockReadings tr)).
Proof.
  cbv zeta. split; [reflexivity|]. split.
  - intros data. unfold fragmentsOf.
    change (normalizeDelimiter (delimiter DEFAULT_SETTINGS)) with [newline].
    assert (Hd : [newline] <> []) by discriminate.
    pose proof (partition_from_segments (removeFrontmatterBlock utils data)
                                        [newline] Hd) as Hseg.
    pose proof (trimmed_nonempty_sound _ _
                  (filter_trim_trimmed_nonempty
                     (split (removeFrontmatterBlock utils data) [newline])))
      as Hne.
    fold (partition (removeFrontmatterBlock utils data) [newline]) in Hne.
    rewrite Forall_forall in *. intros f Hf.
    destruct (Hseg f Hf) as (s & (_ & Hfree) & Htrim & Hfix).
    destruct (Hne f Hf) as [Hnil _].
    repeat split; auto.
    intros Hin. apply in_split in Hin as (l1 & l2 & Hl).
    apply Hfree. apply (is_trim_occurs [newline] s f Htrim).
    now exists l1, l2.
  - destruct (run_kinds host utils DEFAULT_SETTINGS file w)
      as [(msg & ->) | [(err & w1 & ->) | [(msg & w1 & ->) |
          (data & w1 & r & w' & tr & _ & _ & _ & -> & Hmat)]]];
      unfold trace_of; simpl snd; try (split; reflexivity).
    destruct (materialized_counts host utils DEFAULT_SETTINGS file _ r tr Hmat)
      as (_ & _ & [(_ & _ & Hflag) | (Hdel & _)]); [discriminate Hflag|].
    split; [exact Hdel|].
    destruct (materialized_clock host utils DEFAULT_SETTINGS file _ r tr Hmat)
      as (k & tr' & Hps & Hclock & Hfirst).
    destruct (all_processed_synthesized host utils DEFAULT_SETTINGS _ 0 _ k tr'
                eq_refl Hps) as (_ & Hf).
    rewrite Hclock, Hfirst. exact Hf.
Qed.

(** ** The command *)

(** X15. The command runs [splitNoteByDelimiter] only on the file of an
    active view that is in source mode.  Without a view, without a file,
    or in preview mode, it shows one notice, a different one in each
    case, calls nothing of the host and leaves it as it was; the missing
    file is reported before the mode is looked at.  The command itself
    never fails: the promise of [splitNoteByDelimiter] is dropped, so that
    a rejected read or deletion does not reach the caller of the
    command. *)
Theorem command_checks_view_file_and_mode {World : Type} (host : Host World)
        (utils : Utils) (settings : NoteSplitterSettings)
        (view : option MarkdownView) (w : World) :
  let run := callback host utils settings view w in
  outcome_of run = Ok tt
  /\ (view = None ->
      run = (Ok tt, w, [EvNotice (lit "Please open a markdown note.")]))
  /\ (forall v, view = Some v -> file v = None ->
      run = (Ok tt, w, [EvNotice (lit "No file found for this note.")]))
  /\ (forall v f, view = Some v -> file v = Some f -> getMode v = preview ->
      run = (Ok tt, w,
             [EvNotice (lit "Please switch to editing mode to split this note.")]))
  /\ (forall v f, view = Some v -> file v = Some f -> getMode v = source ->
      trace_of run = trace_of (splitNoteByDelimiter host utils settings f w)
      /\ snd (fst run) = snd (fst (splitNoteByDelimiter host utils settings f w)))
  /\ ((exists e, In e (trace_of run) /\ forall msg, e <> EvNotice msg) ->
      exists v f, view = Some v /\ file v = Some f /\ getMode v = source)
  /\ lit "Please open a markdown note." <> lit "No file found for this note."
  /\ lit "Please open a markdown note."
     <> lit "Please switch to editing mode to split this note."
  /\ lit "No file found for this note."
     <> lit "Please switch to editing mode to split this note.".
Proof.
  cbv zeta. split; [|split; [|split; [|split; [|split; [|split]]]]].
  - unfold callback, detached, outcome_of.
    destruct view as [v|]; [|reflexivity].
    destruct (file v) as [f|]; [|reflexivity].
    destruct (getMode v); [|reflexivity].
    now destruct (splitNoteByDelimiter host utils settings f w) as [[r w'] tr].
  - intros ->. reflexivity.
  - intros v -> Hf. unfold callback. now rewrite Hf.
  - intros v f -> Hf Hm. unfold callback. now rewrite Hf, Hm.
  - intros v f -> Hf Hm. unfold callback. rewrite Hf, Hm. unfold detached.
    destruct (splitNoteByDelimiter host utils settings f w) as [[r w'] tr].
    split; reflexivity.
  - unfold callback.
    destruct view as [v|].
    + destruct (file v) as [f|] eqn:Hf.
      * destruct (getMode v) eqn:Hm.
        -- intros _. now exists v, f.
        -- intros (e & [He | []] & Hn). exfalso. apply (Hn _ (eq_sym He)).
      * intros (e & [He | []] & Hn). exfalso. apply (Hn _ (eq_sym He)).
    + intros (e & [He | []] & Hn). exfalso. apply (Hn _ (eq_sym He)).
  - repeat split; discriminate.
Qed.

(** The command returns although the deletion of the note is rejected. *)
Example command_returns_when_delete_rejected :
  outcome_of
    (callback Vault.host SpecUtils.utils Vault.dashes
       (Some {| file := Some Vault.note; getMode := source |})
       (Vault.world Vault.abc [1000; 1000; 1000]%Z 5 true))
  = Ok tt
  /\ outcome_of
       (splitNoteByDelimiter Vault.host SpecUtils.utils Vault.dashes Vault.note
          (Vault.world Vault.abc [1000; 1000; 1000]%Z 5 true))
     = Throw {| message := lit "Operation not permitted." |}.
Proof. split; reflexivity. Qed.

(** ** The settings *)

(** X16. Loading gives the defaults when nothing was saved, gives every
    saved key its saved value and every other key its default, and fails
    when [loadData] is rejected.  On a store that returns the object last
    saved, the settings saved by [saveSettings] are the settings
    [loadSettings] gives back: no default replaces a saved value. *)
Theorem saved_settings_are_loaded_back {World : Type} (store : DataStore World) :
  (forall w w', loadData store w = (Ok None, w') ->
                loadSettings store w = (Ok DEFAULT_SETTINGS, w'))
  /\ (forall w w' err, loadData store w = (Throw err, w') ->
                       loadSettings store w = (Throw err, w'))
  /\ (forall w w' d, loadData store w = (Ok (Some d), w') ->
        exists s, loadSettings store w = (Ok s, w')
          /\ delimiter s = or_default (saved_delimiter d) [backslash; letter_n]
          /\ saveFolderPath s
             = or_default (saved_saveFolderPath d) (lit "note-splitter")
          /\ useContentAsTitle s = or_default (saved_useContentAsTitle d) false
          /\ appendToSplitContent s
             = or_default (saved_appendToSplitContent d) []
          /\ deleteOriginalNote s = or_default (saved_deleteOriginalNote d) false)
  /\ ((forall d w w', saveData store d w = (Ok tt, w') ->
                      loadData store w' = (Ok (Some d), w')) ->
      forall settings w w',
        saveSettings store settings w = (Ok tt, w') ->
        loadSettings store w' = (Ok settings, w')).
Proof.
  unfold loadSettings, saveSettings. repeat split.
  - intros w w' H. now rewrite H.
  - intros w w' err H. now rewrite H.
  - intros w w' d H. rewrite H. eexists. split; [reflexivity|].
    repeat split.
  - intros Hkeep settings w w' Hsave.
    rewrite (Hkeep _ _ _ Hsave). now destruct settings.
Qed.

(** Saving and loading on a data file that keeps the last object saved. *)
Example settings_round_trip :
  let w' := snd (saveSettings DataFile.store Vault.titled None) in
  loadSettings DataFile.store None = (Ok DEFAULT_SETTINGS, None)
  /\ loadSettings DataFile.store w' = (Ok Vault.titled, w').
Proof. split; reflexivity. Qed.

(** ** What a run asks of the clock, the random source and the vault *)

Section Calls.

Context {World : Type}.
Variable host : Host World.
Variable utils : Utils.
Variable settings : NoteSplitterSettings.
Variable folderPath : jsstring.

Lemma processed_calls (i : nat) (c : jsstring) (k : nat) (tr : trace) :
  fragment_processed host utils settings folderPath i c k tr ->
  length (clockReadings tr) = (if useContentAsTitle settings then 0 else 1)
  /\ length (filter drawn tr) = length (filter retried tr)
  /\ length (filter retried tr) <= 1
  /\ length (filter create_called tr) = 1 + length (filter retried tr).
Proof.
  destruct 1 as [fileName tn Hn | fileName tn err uuid Hn Hex
                | fileName tn err uuid err' Hn Hex | fileName tn err Hn Hex];
    destruct Hn as [Hm | t Hm]; rewrite Hm; simpl; repeat split; lia.
Qed.

Lemma all_processed_calls (i : nat) (entries : list jsstring) (k : nat)
      (tr : trace) :
  fragments_processed host utils settings folderPath i entries k tr ->
  length (clockReadings tr)
  = (if useContentAsTitle settings then 0 else length entries)
  /\ length (filter drawn tr) = length (filter retried tr)
  /\ length (filter retried tr) <= length entries
  /\ length (filter create_called tr)
     = length entries + length (filter retried tr).
Proof.
  induction 1 as [i | i c rest k tr n tr' Hp Hps (Hc & Hu & Hr & Hn)].
  - destruct (useContentAsTitle settings); repeat split; simpl; lia.
  - destruct (processed_calls _ _ _ _ Hp) as (Hc1 & Hu1 & Hr1 & Hn1).
    rewrite clockReadings_app, !filter_app, !length_app, Hc, Hc1, Hu, Hu1, Hn, Hn1.
    destruct (useContentAsTitle settings); simpl; repeat split; lia.
Qed.

End Calls.

(** X17. In every run the clock is read once for each fragment attempted
    when [useContentAsTitle] is off and never when it is on; a random
    token is drawn once for each retry and never otherwise; a fragment is
    retried at most once, so that [vault.create] is called at most twice
    for each fragment. *)
Theorem calls_per_fragment {World : Type} (host : Host World)
        (utils : Utils) (settings : NoteSplitterSettings) (file : TFile)
        (w : World) :
  let tr := trace_of (splitNoteByDelimiter host utils settings file w) in
  length (clockReadings tr)
  = (if useContentAsTitle settings then 0 else length (firstAttempts tr))
  /\ length (filter drawn tr) = length (filter retried tr)
  /\ length (filter retried tr) <= length (firstAttempts tr)
  /\ length (filter create_called tr)
     = length (firstAttempts tr) + length (filter retried tr)
  /\ length (filter create_called tr) <= 2 * length (firstAttempts tr).
Proof.
  cbv zeta.
  destruct (run_kinds host utils settings file w)
    as [(msg & ->) | [(err & w1 & ->) | [(msg & w1 & ->) |
        (data & w1 & r & w' & tr & _ & _ & _ & -> & Hmat)]]];
    unfold trace_of; simpl snd;
    try (destruct (useContentAsTitle settings); simpl; repeat split; lia).
  destruct (materialized_parts host utils settings file _ r tr Hmat)
    as (rej & k & loop & tail & -> & Hps & Htail).
  destruct (all_processed_calls _ _ _ _ _ _ _ _ Hps) as (Hc & Hu & Hr & Hn).
  destruct (all_processed_facts _ _ _ _ _ _ _ _ Hps) as (_ & _ & Hf & _).
  change (EvCachedRead file None
          :: EvCreateFolder (folderPathOf settings file) rej :: loop ++ tail)
    with ([EvCachedRead file None;
           EvCreateFolder (folderPathOf settings file) rej] ++ loop ++ tail).
  rewrite !clockReadings_app, !firstAttempts_app, !filter_app, !length_app,
    Hc, Hu, Hn, Hf.
  destruct Htail as [[_ ->] | [[_ ->] | (err & _ & ->)]];
    destruct (useContentAsTitle settings); simpl; repeat split; lia.
Qed.
